(** * Google Maps Platform tools: request construction and result normalisation

    A shallow embedding of the fourteen tool executors of the repository
    (thirteen files; [distance-matrix.js] holds two executors) together with
    the parts of the JavaScript runtime they rely on: property lookup with
    destructuring defaults, truthiness, string conversion, [URLSearchParams],
    [JSON.stringify], [fetch] and [try]/[catch].

    Strings are sequences of bytes (UTF-8).  The HTTP transport is a
    function from the request to what [fetch] settles with. *)

From Stdlib Require Import String Ascii List ZArith NArith Bool Lia DecimalString.
Import ListNotations.
Local Open Scope string_scope.

(** ** JSON values, as [response.json()] yields them and as results are returned *)

(** A JavaScript number, carried by what the executors read of it: its
    [Number.prototype.toString] rendering and whether it is zero.
    [NInt z] is the number that prints as the decimal numeral of [z]:
    every integer of magnitude at most 2^53 is one, and beyond that
    only the integers that are the shortest digits of a number below
    10^21 (2^60 is [NInt 1152921504606847000], as it prints); an integer
    that no number prints as stands for no value.  [NFrac] holds any
    other finite number, one with a fraction or printed with an
    exponent, by its rendering (non-zero, hence truthy); negative zero
    is [NInt 0]. *)
Inductive JsNum : Type :=
| NInt (z : Z)
| NFrac (repr : string)
| NInf (negative : bool)
| NNaN.

#[warnings="-register-all"]
Inductive Json : Type :=
| JNull
| JBool (b : bool)
| JNumber (n : JsNum)
| JString (s : string)
| JArray (items : list Json)
| JObject (members : list (string * Json)).

(** ** Completions: a value, or a thrown exception *)

(** What a [throw] carries: an [Error] instance with its [message], or any
    other value. *)
Inductive Thrown : Type :=
| ErrorObj (message : string)
| NonError (value : Json).

Inductive Completion (A : Type) : Type :=
| Normal (a : A)
| Throw (e : Thrown).
Arguments Normal {A} a.
Arguments Throw {A} e.

Definition bind {A B} (m : Completion A) (f : A -> Completion B) : Completion B :=
  match m with
  | Normal a => f a
  | Throw e => Throw e
  end.

Notation "x <- m ;; k" := (bind m (fun x => k))
  (at level 61, m at next level, right associativity).

(** [try { body } catch (error) { handler }] *)
Definition try_catch {A} (body : Completion A) (handler : Thrown -> Completion A)
  : Completion A :=
  match body with
  | Normal a => Normal a
  | Throw e => handler e
  end.

(** ** Argument values *)

(** A value found in the arguments object.  [VObj] is an array or object,
    carried by its conversion to a string: [Some s] when its [toString]
    method returns [s], [None] when it has no callable [toString] (nor
    [valueOf]), as an object created without a prototype. *)
Inductive JsVal : Type :=
| VUndef
| VNull
| VBool (b : bool)
| VNum (n : JsNum)
| VStr (s : string)
| VObj (toStr : option string).

(** The arguments object: own properties in order. *)
Definition Args := list (string * JsVal).

(** Property read [args.name]: [undefined] when the property is missing. *)
Fixpoint prop (args : Args) (name : string) : JsVal :=
  match args with
  | [] => VUndef
  | (k, v) :: rest => if String.eqb k name then v else prop rest name
  end.

(** Destructuring default [{ name = d }]: used when the property reads
    [undefined], and only then. *)
Definition prop_default (args : Args) (name : string) (d : JsVal) : JsVal :=
  match prop args name with
  | VUndef => d
  | v => v
  end.

Definition number_truthy (n : JsNum) : bool :=
  match n with
  | NInt z => negb (Z.eqb z 0)
  | NFrac _ => true
  | NInf _ => true
  | NNaN => false
  end.

(** ToBoolean, the test of [if (x)]. *)
Definition truthy (v : JsVal) : bool :=
  match v with
  | VUndef => false
  | VNull => false
  | VBool b => b
  | VNum n => number_truthy n
  | VStr s => negb (String.eqb s "")
  | VObj _ => true
  end.

Definition Number_toString (n : JsNum) : string :=
  match n with
  | NInt z => NilZero.string_of_int (Z.to_int z)
  | NFrac repr => repr
  | NInf false => "Infinity"
  | NInf true => "-Infinity"
  | NNaN => "NaN"
  end.

Definition Boolean_toString (b : bool) : string :=
  if b then "true" else "false".

Definition toString_throws : Thrown :=
  ErrorObj "Cannot convert object to primitive value".

(** ToString, the conversion [URLSearchParams.append] applies to its
    arguments. *)
Definition ToString (v : JsVal) : Completion string :=
  match v with
  | VUndef => Normal "undefined"
  | VNull => Normal "null"
  | VBool b => Normal (Boolean_toString b)
  | VNum n => Normal (Number_toString n)
  | VStr s => Normal s
  | VObj (Some s) => Normal s
  | VObj None => Throw toString_throws
  end.

(** The method call [x.toString()] on the variable [x] holding [v]:
    reading a property of [undefined] or [null] throws a TypeError, and
    so does calling a [toString] that is not callable (messages as Node
    prints them). *)
Definition toString_method (x : string) (v : JsVal) : Completion string :=
  match v with
  | VUndef => Throw (ErrorObj "Cannot read properties of undefined (reading 'toString')")
  | VNull => Throw (ErrorObj "Cannot read properties of null (reading 'toString')")
  | VObj None => Throw (ErrorObj (x ++ ".toString is not a function"))
  | _ => ToString v
  end.

(** ** application/x-www-form-urlencoded serialisation *)

Module FormUrlencoded.

Definition in_range (lo hi n : N) : bool := (N.leb lo n && N.leb n hi)%bool.

(** Bytes the serialiser leaves as they are: ASCII alphanumerics and
    [*], [-], [.], [_]. *)
Definition unreserved (c : ascii) : bool :=
  let n := N_of_ascii c in
  (in_range 48 57 n || in_range 65 90 n || in_range 97 122 n
   || N.eqb n 42 || N.eqb n 45 || N.eqb n 46 || N.eqb n 95)%bool.

Definition hex_digit (n : N) : ascii :=
  if N.ltb n 10 then ascii_of_N (48 + n) else ascii_of_N (55 + n).

Definition percent_encode (c : ascii) : string :=
  let n := N_of_ascii c in
  String "%" (String (hex_digit (N.div n 16)) (String (hex_digit (N.modulo n 16)) EmptyString)).

Definition encode_byte (c : ascii) : string :=
  if unreserved c then String c EmptyString
  else if Ascii.eqb c " " then "+"
  else percent_encode c.

Fixpoint encode (s : string) : string :=
  match s with
  | EmptyString => EmptyString
  | String c rest => encode_byte c ++ encode rest
  end.

Definition pair (kv : string * string) : string :=
  encode (fst kv) ++ "=" ++ encode (snd kv).

(** Name-value pairs joined with [&]. *)
Fixpoint serialize (ps : list (string * string)) : string :=
  match ps with
  | [] => EmptyString
  | [kv] => pair kv
  | kv :: rest => pair kv ++ "&" ++ serialize rest
  end.

End FormUrlencoded.

(** ** URL objects *)

(** The list a [URLSearchParams] object holds. *)
Definition URLSearchParams := list (string * string).

(** [params.append(name, value)] *)
Definition params_append (params : URLSearchParams) (name : string) (value : JsVal)
  : Completion URLSearchParams :=
  s <- ToString value ;;
  Normal (params ++ [(name, s)])%list.

(** [if (value) params.append(name, value)] *)
Definition params_append_if_truthy (params : URLSearchParams) (name : string) (value : JsVal)
  : Completion URLSearchParams :=
  if truthy value then params_append params name value else Normal params.

(** A parsed URL: everything before the query, and its [searchParams]. *)
Record URL : Type := mkURL {
  origin_path : string;
  searchParams : URLSearchParams
}.

(** [new URL(s)] for the query-less absolute URLs the tools start from. *)
Definition new_URL (s : string) : URL := mkURL s [].

(** [url.searchParams.append(name, value)] *)
Definition append (url : URL) (name : string) (value : JsVal) : Completion URL :=
  ps <- params_append (searchParams url) name value ;;
  Normal (mkURL (origin_path url) ps).

(** [if (value) url.searchParams.append(name, value)] *)
Definition append_if_truthy (url : URL) (name : string) (value : JsVal) : Completion URL :=
  if truthy value then append url name value else Normal url.

(** [url.toString()]: the query is dropped, with its [?], when the list
    is empty. *)
Definition href (url : URL) : string :=
  match searchParams url with
  | [] => origin_path url
  | ps => origin_path url ++ "?" ++ FormUrlencoded.serialize ps
  end.

(** ** JSON.stringify *)

Module JSON.

Definition quotation_mark : ascii := "034"%char.
Definition reverse_solidus : ascii := "092"%char.

Definition lower_hex (n : N) : ascii :=
  if N.ltb n 10 then ascii_of_N (48 + n) else ascii_of_N (87 + n).

(** One byte of a string inside its quotes (QuoteJSONString). *)
Definition escape_byte (c : ascii) : string :=
  let n := N_of_ascii c in
  if N.eqb n 34 then String reverse_solidus (String quotation_mark EmptyString)
  else if N.eqb n 92 then String reverse_solidus (String reverse_solidus EmptyString)
  else if N.eqb n 8 then String reverse_solidus "b"
  else if N.eqb n 12 then String reverse_solidus "f"
  else if N.eqb n 10 then String reverse_solidus "n"
  else if N.eqb n 13 then String reverse_solidus "r"
  else if N.eqb n 9 then String reverse_solidus "t"
  else if N.ltb n 32 then
    String reverse_solidus
      (String "u" (String "0" (String "0"
        (String (lower_hex (N.div n 16)) (String (lower_hex (N.modulo n 16)) EmptyString)))))
  else String c EmptyString.

Fixpoint escape (s : string) : string :=
  match s with
  | EmptyString => EmptyString
  | String c rest => escape_byte c ++ escape rest
  end.

Definition quote (s : string) : string :=
  String quotation_mark (escape s ++ String quotation_mark EmptyString).

(** Non-finite numbers serialise as [null]. *)
Definition number (n : JsNum) : string :=
  match n with
  | NInf _ => "null"
  | NNaN => "null"
  | _ => Number_toString n
  end.

(** [JSON.stringify(value)] with no indentation, on a JSON value. *)
Fixpoint stringify (j : Json) : string :=
  match j with
  | JNull => "null"
  | JBool b => Boolean_toString b
  | JNumber n => number n
  | JString s => quote s
  | JArray items =>
      "[" ++ (fix elements (l : list Json) : string :=
                match l with
                | [] => EmptyString
                | [x] => stringify x
                | x :: rest => stringify x ++ "," ++ elements rest
                end) items ++ "]"
  | JObject members =>
      "{" ++ (fix properties (l : list (string * Json)) : string :=
                match l with
                | [] => EmptyString
                | [(k, v)] => quote k ++ ":" ++ stringify v
                | (k, v) :: rest => quote k ++ ":" ++ stringify v ++ "," ++ properties rest
                end) members ++ "}"
  end.

End JSON.

(** ** The HTTP transport *)

Record Request : Type := mkRequest {
  method : string;
  request_url : string;
  headers : list (string * string)
}.

(** A response: its status, and what [response.json()] settles with (the
    parsed body, or the exception of a body that is not JSON). *)
Record Response : Type := mkResponse {
  status : Z;
  json : Completion Json
}.

(** [response.ok] *)
Definition ok (r : Response) : bool :=
  (Z.leb 200 (status r) && Z.leb (status r) 299)%bool.

(** What [await fetch(...)] gives: a response, or the rejection of a
    transport failure. *)
Definition Transport := Request -> Completion Response.

(** Process-wide configuration: [process.env.GOOGLE_MAPS_PLATFORM_API_KEY],
    a string or [undefined]. *)
Definition Env := option string.

Definition env_value (apiKey : Env) : JsVal :=
  match apiKey with
  | Some k => VStr k
  | None => VUndef
  end.

(** [`${apiKey}`] inside a template literal. *)
Definition template (apiKey : Env) : string :=
  match apiKey with
  | Some k => k
  | None => "undefined"
  end.

Definition accept_json : list (string * string) := [("Accept", "application/json")].
Definition content_type_json : list (string * string) := [("Content-Type", "application/json")].

(** [fetch(url, { method: 'GET', headers })] *)
Definition GET (url : string) (hdrs : list (string * string)) : Request :=
  mkRequest "GET" url hdrs.

(** ** The tools: construction of the request *)

(** *** distance_matrix (distance-matrix.js) *)

Definition distance_matrix_url (apiKey : Env) (args : Args) : Completion URL :=
  let origins := prop args "origins" in
  let destinations := prop args "destinations" in
  let mode := prop_default args "mode" (VStr "driving") in
  let units := prop_default args "units" (VStr "metric") in
  let language := prop_default args "language" (VStr "en") in
  let departure_time := prop args "departure_time" in
  let avoid := prop args "avoid" in
  let traffic_model := prop_default args "traffic_model" (VStr "best_guess") in
  let baseUrl := "https://maps.googleapis.com/maps/api/distancematrix/json" in
  let url := new_URL baseUrl in
  url <- append url "origins" origins ;;
  url <- append url "destinations" destinations ;;
  url <- append url "mode" mode ;;
  url <- append url "units" units ;;
  url <- append url "language" language ;;
  url <- append_if_truthy url "departure_time" departure_time ;;
  url <- append_if_truthy url "avoid" avoid ;;
  url <- append_if_truthy url "traffic_model" traffic_model ;;
  append url "key" (env_value apiKey).

Definition distance_matrix_request (apiKey : Env) (args : Args) : Completion Request :=
  url <- distance_matrix_url apiKey args ;;
  Normal (GET (href url) accept_json).

(** *** autocomplete_place (second executor of distance-matrix.js) *)

Definition autocomplete_place_url (apiKey : Env) (args : Args) : Completion URL :=
  let input := prop args "input" in
  let sessiontoken := prop args "sessiontoken" in
  let components := prop args "components" in
  let strictbounds := prop args "strictbounds" in
  let offset := prop args "offset" in
  let origin := prop args "origin" in
  let location := prop args "location" in
  let radius := prop args "radius" in
  let types := prop args "types" in
  let language := prop_default args "language" (VStr "en") in
  let region := prop_default args "region" (VStr "en") in
  let baseUrl := "https://www.googleapis.com" in
  let url := new_URL (baseUrl ++ "/maps/api/place/autocomplete/json") in
  url <- append url "input" input ;;
  url <- append_if_truthy url "sessiontoken" sessiontoken ;;
  url <- append_if_truthy url "components" components ;;
  url <- append_if_truthy url "strictbounds" strictbounds ;;
  url <- append_if_truthy url "offset" offset ;;
  url <- append_if_truthy url "origin" origin ;;
  url <- append_if_truthy url "location" location ;;
  url <- append_if_truthy url "radius" radius ;;
  url <- append_if_truthy url "types" types ;;
  url <- append_if_truthy url "language" language ;;
  url <- append_if_truthy url "region" region ;;
  append url "key" (env_value apiKey).

Definition autocomplete_place_request (apiKey : Env) (args : Args) : Completion Request :=
  url <- autocomplete_place_url apiKey args ;;
  Normal (GET (href url) accept_json).

(** *** query_autocomplete (query-autocomplete.js) *)

Definition query_autocomplete_url (apiKey : Env) (args : Args) : Completion URL :=
  let input := prop args "input" in
  let offset := prop args "offset" in
  let location := prop args "location" in
  let radius := prop args "radius" in
  let language := prop_default args "language" (VStr "en") in
  let baseUrl := "https://www.googleapis.com" in
  let url := new_URL (baseUrl ++ "/maps/api/place/queryautocomplete/json") in
  url <- append url "input" input ;;
  url <- append_if_truthy url "offset" offset ;;
  url <- append_if_truthy url "location" location ;;
  url <- append_if_truthy url "radius" radius ;;
  url <- append url "language" language ;;
  append url "key" (env_value apiKey).

Definition query_autocomplete_request (apiKey : Env) (args : Args) : Completion Request :=
  url <- query_autocomplete_url apiKey args ;;
  Normal (GET (href url) accept_json).

(** *** get_place_details (place-details.js) *)

Definition get_place_details_url (apiKey : Env) (args : Args) : Completion URL :=
  let place_id := prop args "place_id" in
  let fields := prop args "fields" in
  let sessiontoken := prop args "sessiontoken" in
  let language := prop_default args "language" (VStr "en") in
  let region := prop_default args "region" (VStr "en") in
  let baseUrl := "https://www.googleapis.com" in
  let url := new_URL (baseUrl ++ "/maps/api/place/details/json") in
  url <- append url "place_id" place_id ;;
  url <- append_if_truthy url "fields" fields ;;
  url <- append_if_truthy url "sessiontoken" sessiontoken ;;
  url <- append url "language" language ;;
  url <- append url "region" region ;;
  append url "key" (env_value apiKey).

Definition get_place_details_request (apiKey : Env) (args : Args) : Completion Request :=
  url <- get_place_details_url apiKey args ;;
  Normal (GET (href url) accept_json).

(** *** nearby_search (nearby-search.js) *)

Definition nearby_search_url (apiKey : Env) (args : Args) : Completion URL :=
  let location := prop args "location" in
  let keyword := prop args "keyword" in
  let name := prop args "name" in
  let radius := prop args "radius" in
  let type := prop args "type" in
  let language := prop_default args "language" (VStr "en") in
  let baseUrl := "https://maps.googleapis.com/maps/api/place/nearbysearch/json" in
  let url := new_URL baseUrl in
  url <- append url "location" location ;;
  url <- append_if_truthy url "keyword" keyword ;;
  url <- append_if_truthy url "name" name ;;
  url <- append_if_truthy url "radius" radius ;;
  url <- append_if_truthy url "type" type ;;
  url <- append url "language" language ;;
  append url "key" (env_value apiKey).

Definition nearby_search_request (apiKey : Env) (args : Args) : Completion Request :=
  url <- nearby_search_url apiKey args ;;
  Normal (GET (href url) accept_json).

(** *** text_search: the parameters go to a separate [URLSearchParams]
    object, joined to the URL with [?] inside a template literal. *)

Definition text_search_params (apiKey : Env) (args : Args) : Completion URLSearchParams :=
  let query := prop args "query" in
  let location := prop args "location" in
  let maxprice := prop args "maxprice" in
  let minprice := prop args "minprice" in
  let opennow := prop args "opennow" in
  let pagetoken := prop args "pagetoken" in
  let radius := prop args "radius" in
  let type := prop args "type" in
  let language := prop_default args "language" (VStr "en") in
  let region := prop_default args "region" (VStr "en") in
  let params : URLSearchParams := [] in
  params <- params_append params "query" query ;;
  params <- params_append_if_truthy params "location" location ;;
  params <- params_append_if_truthy params "maxprice" maxprice ;;
  params <- params_append_if_truthy params "minprice" minprice ;;
  params <- params_append_if_truthy params "opennow" opennow ;;
  params <- params_append_if_truthy params "pagetoken" pagetoken ;;
  params <- params_append_if_truthy params "radius" radius ;;
  params <- params_append_if_truthy params "type" type ;;
  params <- params_append_if_truthy params "language" language ;;
  params <- params_append_if_truthy params "region" region ;;
  params_append params "key" (env_value apiKey).

Definition text_search_request (apiKey : Env) (args : Args) : Completion Request :=
  let baseUrl := "https://maps.googleapis.com/maps/api/place/textsearch/json" in
  let url := new_URL baseUrl in
  params <- text_search_params apiKey args ;;
  Normal (GET (href url ++ "?" ++ FormUrlencoded.serialize params) accept_json).

(** *** find_place_from_text (find-place-from-text.js) *)

Definition find_place_from_text_url (apiKey : Env) (args : Args) : Completion URL :=
  let input := prop args "input" in
  let inputtype := prop args "inputtype" in
  let fields := prop args "fields" in
  let locationbias := prop args "locationbias" in
  let language := prop_default args "language" (VStr "en") in
  let baseUrl := "https://www.googleapis.com" in
  let url := new_URL (baseUrl ++ "/maps/api/place/findplacefromtext/json") in
  url <- append url "input" input ;;
  url <- append url "inputtype" inputtype ;;
  url <- append_if_truthy url "fields" fields ;;
  url <- append_if_truthy url "locationbias" locationbias ;;
  url <- append url "language" language ;;
  append url "key" (env_value apiKey).

Definition find_place_from_text_request (apiKey : Env) (args : Args) : Completion Request :=
  url <- find_place_from_text_url apiKey args ;;
  Normal (GET (href url) accept_json).

(** *** get_time_zone *)

Definition get_time_zone_url (apiKey : Env) (args : Args) : Completion URL :=
  let location := prop args "location" in
  let timestamp := prop args "timestamp" in
  let baseUrl := "https://www.googleapis.com" in
  let url := new_URL (baseUrl ++ "/maps/api/timezone/json") in
  url <- append url "location" location ;;
  timestamp_s <- toString_method "timestamp" timestamp ;;
  url <- append url "timestamp" (VStr timestamp_s) ;;
  append url "key" (env_value apiKey).

Definition get_time_zone_request (apiKey : Env) (args : Args) : Completion Request :=
  url <- get_time_zone_url apiKey args ;;
  Normal (GET (href url) accept_json).

(** *** nearest_roads (nearest-roads.js) *)

Definition nearest_roads_url (apiKey : Env) (args : Args) : Completion URL :=
  let points := prop args "points" in
  let baseUrl := "https://roads.googleapis.com/v1/nearestRoads" in
  let url := new_URL baseUrl in
  url <- append url "points" points ;;
  append url "key" (env_value apiKey).

Definition nearest_roads_request (apiKey : Env) (args : Args) : Completion Request :=
  url <- nearest_roads_url apiKey args ;;
  Normal (GET (href url) accept_json).

(** *** snap_to_roads *)

Definition snap_to_roads_url (apiKey : Env) (args : Args) : Completion URL :=
  let path := prop args "path" in
  let interpolate := prop_default args "interpolate" (VBool false) in
  let baseUrl := "https://roads.googleapis.com/v1/snaptoroads" in
  let url := new_URL baseUrl in
  url <- append url "path" path ;;
  interpolate_s <- toString_method "interpolate" interpolate ;;
  url <- append url "interpolate" (VStr interpolate_s) ;;
  append url "key" (env_value apiKey).

Definition snap_to_roads_request (apiKey : Env) (args : Args) : Completion Request :=
  url <- snap_to_roads_url apiKey args ;;
  Normal (GET (href url) accept_json).

(** *** forecast_days: the key is concatenated to [url.toString()] *)

Definition forecast_days_url (args : Args) : Completion URL :=
  let latitude := prop args "latitude" in
  let longitude := prop args "longitude" in
  let pageSize := prop_default args "pageSize" (VNum (NInt 5)) in
  let pageToken := prop args "pageToken" in
  let days := prop_default args "days" (VNum (NInt 10)) in
  let languageCode := prop_default args "languageCode" (VStr "en") in
  let baseUrl := "https://weather.googleapis.com" in
  let url := new_URL (baseUrl ++ "/v1/forecast/days:lookup") in
  url <- append url "location.latitude" latitude ;;
  url <- append url "location.longitude" longitude ;;
  pageSize_s <- toString_method "pageSize" pageSize ;;
  url <- append url "pageSize" (VStr pageSize_s) ;;
  url <- append_if_truthy url "pageToken" pageToken ;;
  days_s <- toString_method "days" days ;;
  url <- append url "days" (VStr days_s) ;;
  append url "languageCode" languageCode.

Definition forecast_days_request (apiKey : Env) (args : Args) : Completion Request :=
  url <- forecast_days_url args ;;
  Normal (GET (href url ++ "&key=" ++ template apiKey) content_type_json).

(** *** forecast_hours (forecast-hours.js): the key is appended only when
    the configured value is truthy *)

Definition forecast_hours_url (apiKey : Env) (args : Args) : Completion URL :=
  let latitude := prop args "latitude" in
  let longitude := prop args "longitude" in
  let unitsSystem := prop_default args "unitsSystem" (VStr "METRIC") in
  let pageSize := prop_default args "pageSize" (VNum (NInt 24)) in
  let pageToken := prop args "pageToken" in
  let days := prop_default args "days" (VNum (NInt 240)) in
  let languageCode := prop_default args "languageCode" (VStr "en") in
  let baseUrl := "https://weather.googleapis.com" in
  let url := new_URL (baseUrl ++ "/v1/forecast/hours:lookup") in
  url <- append url "location.latitude" latitude ;;
  url <- append url "location.longitude" longitude ;;
  url <- append url "unitsSystem" unitsSystem ;;
  pageSize_s <- toString_method "pageSize" pageSize ;;
  url <- append url "pageSize" (VStr pageSize_s) ;;
  url <- append_if_truthy url "pageToken" pageToken ;;
  days_s <- toString_method "days" days ;;
  url <- append url "days" (VStr days_s) ;;
  url <- append url "languageCode" languageCode ;;
  if truthy (env_value apiKey) then append url "key" (env_value apiKey) else Normal url.

Definition forecast_hours_request (apiKey : Env) (args : Args) : Completion Request :=
  url <- forecast_hours_url apiKey args ;;
  Normal (GET (href url) content_type_json).

(** *** get_hourly_weather (history-hours.js) *)

Definition get_hourly_weather_url (args : Args) : Completion URL :=
  let latitude := prop args "latitude" in
  let longitude := prop args "longitude" in
  let unitsSystem := prop_default args "unitsSystem" (VStr "METRIC") in
  let pageSize := prop_default args "pageSize" (VNum (NInt 24)) in
  let pageToken := prop args "pageToken" in
  let hours := prop_default args "hours" (VNum (NInt 24)) in
  let languageCode := prop_default args "languageCode" (VStr "en") in
  let baseUrl := "https://weather.googleapis.com" in
  let url := new_URL (baseUrl ++ "/v1/history/hours:lookup") in
  url <- append url "location.latitude" latitude ;;
  url <- append url "location.longitude" longitude ;;
  url <- append url "unitsSystem" unitsSystem ;;
  pageSize_s <- toString_method "pageSize" pageSize ;;
  url <- append url "pageSize" (VStr pageSize_s) ;;
  url <- append_if_truthy url "pageToken" pageToken ;;
  hours_s <- toString_method "hours" hours ;;
  url <- append url "hours" (VStr hours_s) ;;
  append url "languageCode" languageCode.

Definition get_hourly_weather_request (apiKey : Env) (args : Args) : Completion Request :=
  url <- get_hourly_weather_url args ;;
  Normal (GET (href url ++ "&key=" ++ template apiKey) content_type_json).

(** *** current_conditions *)

Definition current_conditions_url (args : Args) : Completion URL :=
  let latitude := prop args "latitude" in
  let longitude := prop args "longitude" in
  let unitsSystem := prop_default args "unitsSystem" (VStr "METRIC") in
  let languageCode := prop_default args "languageCode" (VStr "en") in
  let baseUrl := "https://weather.googleapis.com" in
  let url := new_URL (baseUrl ++ "/v1/currentConditions:lookup") in
  url <- append url "location.latitude" latitude ;;
  url <- append url "location.longitude" longitude ;;
  url <- append url "unitsSystem" unitsSystem ;;
  append url "languageCode" languageCode.

Definition current_conditions_request (apiKey : Env) (args : Args) : Completion Request :=
  url <- current_conditions_url args ;;
  Normal (GET (href url ++ "&key=" ++ template apiKey) content_type_json).

(** ** The executors *)

Inductive Tool : Type :=
| distance_matrix
| autocomplete_place
| query_autocomplete
| get_place_details
| nearby_search
| text_search
| find_place_from_text
| get_time_zone
| nearest_roads
| snap_to_roads
| forecast_days
| forecast_hours
| get_hourly_weather
| current_conditions.

Definition all_tools : list Tool :=
  [distance_matrix; autocomplete_place; query_autocomplete; get_place_details;
   nearby_search; text_search; find_place_from_text; get_time_zone; nearest_roads;
   snap_to_roads; forecast_days; forecast_hours; get_hourly_weather;
   current_conditions].

(** The request each executor hands to [fetch]. *)
Definition request (t : Tool) : Env -> Args -> Completion Request :=
  match t with
  | distance_matrix => distance_matrix_request
  | autocomplete_place => autocomplete_place_request
  | query_autocomplete => query_autocomplete_request
  | get_place_details => get_place_details_request
  | nearby_search => nearby_search_request
  | text_search => text_search_request
  | find_place_from_text => find_place_from_text_request
  | get_time_zone => get_time_zone_request
  | nearest_roads => nearest_roads_request
  | snap_to_roads => snap_to_roads_request
  | forecast_days => forecast_days_request
  | forecast_hours => forecast_hours_request
  | get_hourly_weather => get_hourly_weather_request
  | current_conditions => current_conditions_request
  end.

(** The parameter list the executor has built when it calls [fetch]. *)
Definition query_params (t : Tool) (apiKey : Env) (args : Args)
  : Completion URLSearchParams :=
  let of_url (m : Completion URL) := url <- m ;; Normal (searchParams url) in
  match t with
  | distance_matrix => of_url (distance_matrix_url apiKey args)
  | autocomplete_place => of_url (autocomplete_place_url apiKey args)
  | query_autocomplete => of_url (query_autocomplete_url apiKey args)
  | get_place_details => of_url (get_place_details_url apiKey args)
  | nearby_search => of_url (nearby_search_url apiKey args)
  | text_search => text_search_params apiKey args
  | find_place_from_text => of_url (find_place_from_text_url apiKey args)
  | get_time_zone => of_url (get_time_zone_url apiKey args)
  | nearest_roads => of_url (nearest_roads_url apiKey args)
  | snap_to_roads => of_url (snap_to_roads_url apiKey args)
  | forecast_days => of_url (forecast_days_url args)
  | forecast_hours => of_url (forecast_hours_url apiKey args)
  | get_hourly_weather => of_url (get_hourly_weather_url args)
  | current_conditions => of_url (current_conditions_url args)
  end.

(** The text each executor's [catch] block puts before the message. *)
Definition failure_prefix (t : Tool) : string :=
  match t with
  | distance_matrix => "An error occurred while fetching the distance matrix: "
  | autocomplete_place => "An error occurred while performing autocomplete search: "
  | query_autocomplete => "An error occurred while performing query autocomplete: "
  | get_place_details => "An error occurred while fetching place details: "
  | nearby_search => "An error occurred while performing nearby search: "
  | text_search => "An error occurred while performing the text search: "
  | find_place_from_text => "An error occurred while finding place from text: "
  | get_time_zone => "An error occurred while fetching time zone information: "
  | nearest_roads => "An error occurred while finding nearest roads: "
  | snap_to_roads => "An error occurred while snapping to roads: "
  | forecast_days => "An error occurred while fetching the weather forecast: "
  | forecast_hours => "An error occurred while fetching the hourly weather forecast: "
  | get_hourly_weather => "An error occurred while retrieving weather data: "
  | current_conditions => "An error occurred while fetching current weather conditions: "
  end.

(** [error instanceof Error ? error.message : JSON.stringify(error)] *)
Definition describe (error : Thrown) : string :=
  match error with
  | ErrorObj message => message
  | NonError value => JSON.stringify value
  end.

(** The object literal [{ error: s }]. *)
Definition error_result (s : string) : Json := JObject [("error", JString s)].

(** The body of every executor after the request is built: one [fetch],
    the [response.ok] test, and the parse of the body. *)
Definition fetch_json (fetch : Transport) (req : Request) : Completion Json :=
  response <- fetch req ;;
  if negb (ok response) then
    errorData <- json response ;;
    Throw (ErrorObj (JSON.stringify errorData))
  else
    data <- json response ;;
    Normal data.

(** [executeFunction] of tool [t]; what the returned promise settles with.
    The fourteen executors differ in the request they build and in the
    prefix of the [catch] message only.  The [console.error] call of the
    [catch] block writes to the diagnostic stream and is left out.  The
    parameter is an arguments object; it is destructured before the
    [try] block is entered. *)
Definition executeFunction (t : Tool) (apiKey : Env) (fetch : Transport) (args : Args)
  : Completion Json :=
  try_catch
    (req <- request t apiKey args ;;
     fetch_json fetch req)
    (fun error => Normal (error_result (failure_prefix t ++ describe error))).

(** ** Tool descriptors *)

Inductive JsType : Type := TString | TNumber | TInteger | TBoolean.

(** [apiTool.definition.function]: the name, the declared properties in
    order, and the required names. *)
Record Descriptor : Type := mkDescriptor {
  name : string;
  properties : list (string * JsType);
  required : list string
}.

Definition definition (t : Tool) : Descriptor :=
  match t with
  | distance_matrix =>
      mkDescriptor "distance_matrix"
        [("origins", TString); ("destinations", TString); ("mode", TString);
         ("units", TString); ("language", TString); ("departure_time", TInteger);
         ("avoid", TString); ("traffic_model", TString)]
        ["origins"; "destinations"]
  | autocomplete_place =>
      mkDescriptor "autocomplete_place"
        [("input", TString); ("sessiontoken", TString); ("components", TString);
         ("strictbounds", TBoolean); ("offset", TInteger); ("origin", TString);
         ("location", TString); ("radius", TInteger); ("types", TString);
         ("language", TString); ("region", TString)]
        ["input"]
  | query_autocomplete =>
      mkDescriptor "query_autocomplete"
        [("input", TString); ("offset", TInteger); ("location", TString);
         ("radius", TInteger); ("language", TString)]
        ["input"]
  | get_place_details =>
      mkDescriptor "get_place_details"
        [("place_id", TString); ("fields", TString); ("sessiontoken", TString);
         ("language", TString); ("region", TString)]
        ["place_id"]
  | nearby_search =>
      mkDescriptor "nearby_search"
        [("location", TString); ("keyword", TString); ("name", TString);
         ("radius", TNumber); ("type", TString); ("language", TString)]
        ["location"]
  | text_search =>
      mkDescriptor "text_search"
        [("query", TString); ("location", TString); ("maxprice", TString);
         ("minprice", TString); ("opennow", TBoolean); ("pagetoken", TString);
         ("radius", TNumber); ("type", TString); ("language", TString);
         ("region", TString)]
        ["query"]
  | find_place_from_text =>
      mkDescriptor "find_place_from_text"
        [("input", TString); ("inputtype", TString); ("fields", TString);
         ("locationbias", TString); ("language", TString)]
        ["input"; "inputtype"]
  | get_time_zone =>
      mkDescriptor "get_time_zone"
        [("location", TString); ("timestamp", TNumber)]
        ["location"; "timestamp"]
  | nearest_roads =>
      mkDescriptor "nearest_roads" [("points", TString)] ["points"]
  | snap_to_roads =>
      mkDescriptor "snap_to_roads"
        [("path", TString); ("interpolate", TBoolean)]
        ["path"]
  | forecast_days =>
      mkDescriptor "forecast_days"
        [("latitude", TNumber); ("longitude", TNumber); ("pageSize", TInteger);
         ("pageToken", TString); ("days", TInteger); ("languageCode", TString)]
        ["latitude"; "longitude"]
  | forecast_hours =>
      mkDescriptor "forecast_hours"
        [("latitude", TNumber); ("longitude", TNumber); ("unitsSystem", TString);
         ("pageSize", TInteger); ("pageToken", TString); ("days", TInteger);
         ("languageCode", TString)]
        ["latitude"; "longitude"]
  | get_hourly_weather =>
      mkDescriptor "get_hourly_weather"
        [("latitude", TNumber); ("longitude", TNumber); ("unitsSystem", TString);
         ("pageSize", TInteger); ("pageToken", TString); ("hours", TInteger);
         ("languageCode", TString)]
        ["latitude"; "longitude"]
  | current_conditions =>
      mkDescriptor "current_conditions"
        [("latitude", TNumber); ("longitude", TNumber); ("unitsSystem", TString);
         ("languageCode", TString)]
        ["latitude"; "longitude"]
  end.

(** A value of the declared JSON-schema type. *)
Definition has_type (ty : JsType) (v : JsVal) : bool :=
  match ty, v with
  | TString, VStr _ => true
  | TNumber, VNum (NInt _) => true
  | TNumber, VNum (NFrac _) => true
  | TInteger, VNum (NInt _) => true
  | TBoolean, VBool _ => true
  | _, _ => false
  end.

Definition is_required (d : Descriptor) (n : string) : bool :=
  existsb (String.eqb n) (required d).

Definition is_undefined (v : JsVal) : bool :=
  match v with
  | VUndef => true
  | _ => false
  end.

(** Every required property holds a value of its declared type. *)
Definition required_supplied (t : Tool) (args : Args) : bool :=
  forallb (fun p => (negb (is_required (definition t) (fst p))
                     || has_type (snd p) (prop args (fst p)))%bool)
          (properties (definition t)).

(** No optional property is supplied. *)
Definition optional_absent (t : Tool) (args : Args) : bool :=
  forallb (fun p => (is_required (definition t) (fst p)
                     || is_undefined (prop args (fst p)))%bool)
          (properties (definition t)).

(** ** The specification's view of the tools

    The definitions of this part follow the specification's tables and
    wording; the theorems below compare the executors with them. *)

Module Spec.

(** The weather family. *)
Definition weather_family (t : Tool) : bool :=
  match t with
  | forecast_days | forecast_hours | get_hourly_weather | current_conditions => true
  | _ => false
  end.

(** The endpoint-specific header policy. *)
Definition header_policy (t : Tool) : list (string * string) :=
  if weather_family t then [("Content-Type", "application/json")]
  else [("Accept", "application/json")].

(** The tools that join the key to the URL text themselves. *)
Definition concatenates_key (t : Tool) : bool :=
  match t with
  | forecast_days | get_hourly_weather | current_conditions => true
  | _ => false
  end.

(** Whether the executor adds the key to its request: forecast_hours
    does so only for a truthy configuration value. *)
Definition appends_key (t : Tool) (apiKey : Env) : bool :=
  match t with
  | forecast_hours => truthy (env_value apiKey)
  | _ => true
  end.

(** The key as it stands in the URL that is sent. *)
Definition key_in_url (t : Tool) (apiKey : Env) : string :=
  if concatenates_key t then template apiKey
  else FormUrlencoded.encode (template apiKey).

(** The optional parameters under the include-only-if-present policy. *)
Definition include_if_present (t : Tool) : list string :=
  match t with
  | distance_matrix => ["departure_time"; "avoid"; "traffic_model"]
  | autocomplete_place =>
      ["sessiontoken"; "components"; "strictbounds"; "offset"; "origin";
       "location"; "radius"; "types"; "language"; "region"]
  | query_autocomplete => ["offset"; "location"; "radius"]
  | get_place_details => ["fields"; "sessiontoken"]
  | nearby_search => ["keyword"; "name"; "radius"; "type"]
  | text_search =>
      ["location"; "maxprice"; "minprice"; "opennow"; "pagetoken"; "radius";
       "type"; "language"; "region"]
  | find_place_from_text => ["fields"; "locationbias"]
  | forecast_days | forecast_hours | get_hourly_weather => ["pageToken"]
  | get_time_zone | nearest_roads | snap_to_roads | current_conditions => []
  end.

(** The documented defaults of the optional parameters (table of
    section 4.1). *)
Definition documented_defaults (t : Tool) : list (string * string) :=
  match t with
  | distance_matrix =>
      [("mode", "driving"); ("units", "metric"); ("language", "en");
       ("traffic_model", "best_guess")]
  | autocomplete_place => [("language", "en"); ("region", "en")]
  | query_autocomplete => [("language", "en")]
  | get_place_details => [("language", "en"); ("region", "en")]
  | nearby_search => [("language", "en")]
  | text_search => [("language", "en"); ("region", "en")]
  | find_place_from_text => [("language", "en")]
  | get_time_zone => []
  | nearest_roads => []
  | snap_to_roads => [("interpolate", "false")]
  | forecast_days => [("pageSize", "5"); ("days", "10"); ("languageCode", "en")]
  | forecast_hours =>
      [("unitsSystem", "METRIC"); ("pageSize", "24"); ("days", "240");
       ("languageCode", "en")]
  | get_hourly_weather =>
      [("unitsSystem", "METRIC"); ("pageSize", "24"); ("hours", "24");
       ("languageCode", "en")]
  | current_conditions => [("unitsSystem", "METRIC"); ("languageCode", "en")]
  end.

(** The endpoint of each tool. *)
Definition endpoint (t : Tool) : string :=
  match t with
  | distance_matrix => "https://maps.googleapis.com/maps/api/distancematrix/json"
  | autocomplete_place => "https://www.googleapis.com/maps/api/place/autocomplete/json"
  | query_autocomplete => "https://www.googleapis.com/maps/api/place/queryautocomplete/json"
  | get_place_details => "https://www.googleapis.com/maps/api/place/details/json"
  | nearby_search => "https://maps.googleapis.com/maps/api/place/nearbysearch/json"
  | text_search => "https://maps.googleapis.com/maps/api/place/textsearch/json"
  | find_place_from_text => "https://www.googleapis.com/maps/api/place/findplacefromtext/json"
  | get_time_zone => "https://www.googleapis.com/maps/api/timezone/json"
  | nearest_roads => "https://roads.googleapis.com/v1/nearestRoads"
  | snap_to_roads => "https://roads.googleapis.com/v1/snaptoroads"
  | forecast_days => "https://weather.googleapis.com/v1/forecast/days:lookup"
  | forecast_hours => "https://weather.googleapis.com/v1/forecast/hours:lookup"
  | get_hourly_weather => "https://weather.googleapis.com/v1/history/hours:lookup"
  | current_conditions => "https://weather.googleapis.com/v1/currentConditions:lookup"
  end.

(** The name a property travels under: the weather tools send the
    coordinates as [location.latitude] and [location.longitude]. *)
Definition wire_name (t : Tool) (n : string) : string :=
  if (weather_family t && (String.eqb n "latitude" || String.eqb n "longitude"))%bool
  then "location." ++ n
  else n.

(** The text of a supplied value. *)
Definition value_text (v : JsVal) : string :=
  match ToString v with
  | Normal s => s
  | Throw _ => EmptyString
  end.

Fixpoint lookup (n : string) (table : list (string * string)) : option string :=
  match table with
  | [] => None
  | (k, v) :: rest => if String.eqb k n then Some v else lookup n rest
  end.

(** Required parameters with their values and optional parameters with
    their documented defaults, in declaration order. *)
Definition documented_query (t : Tool) (args : Args) : list (string * string) :=
  flat_map
    (fun p =>
       let n := fst p in
       if is_required (definition t) n
       then [(wire_name t n, value_text (prop args n))]
       else match lookup n (documented_defaults t) with
            | Some d => [(wire_name t n, d)]
            | None => []
            end)
    (properties (definition t)).

(** [s] ends with [suffix]. *)
Definition ends_with (suffix s : string) : bool :=
  String.eqb
    (substring (String.length s - String.length suffix) (String.length suffix) s)
    suffix.

(** The values sent under the name [n]. *)
Definition values_of (n : string) (ps : URLSearchParams) : list string :=
  map snd (filter (fun kv => String.eqb (fst kv) n) ps).

Fixpoint all_unreserved (s : string) : bool :=
  match s with
  | EmptyString => true
  | String c rest => (FormUrlencoded.unreserved c && all_unreserved rest)%bool
  end.

(** The documented failure test on a result: an object with an [error]
    member that is a string. *)
Definition failure_test (result : Json) : bool :=
  match result with
  | JObject members =>
      existsb (fun m => match snd m with
                        | JString _ => String.eqb (fst m) "error"
                        | _ => false
                        end) members
  | _ => false
  end.

(** What one step adds to the values sent under [p]. *)
Definition contribution (p n : string) (sent : list string) : list string :=
  if String.eqb n p then sent else [].

(** The effect of a step on a parameter list: the list stays non-empty
    once it is, and the values under [p] grow by [sent] when the step's
    name is [p]. *)
Definition step_effect (p n : string) (sent : list string) (ps ps' : URLSearchParams) : Prop :=
  values_of p ps' = (values_of p ps ++ contribution p n sent)%list
  /\ (ps <> [] -> ps' <> []).

End Spec.

(** ** What the executors read, convert and send *)

Module Contract.

(** The names a descriptor declares, in order. *)
Definition declared (t : Tool) : list string :=
  map fst (properties (definition t)).

(** The names a request can carry, in the order the executor appends
    them. *)
Definition sendable_names (t : Tool) : list string :=
  (map (Spec.wire_name t) (declared t) ++ ["key"])%list.

(** [a] is [l] with some elements left out. *)
Inductive Subsequence {A : Type} : list A -> list A -> Prop :=
| sub_nil : forall l, Subsequence [] l
| sub_take : forall x a l, Subsequence a l -> Subsequence (x :: a) (x :: l)
| sub_skip : forall x a l, Subsequence a l -> Subsequence a (x :: l).

(** The parameters with a destructuring default that are appended
    without a test. *)
Definition always_defaulted (t : Tool) : list string :=
  match t with
  | distance_matrix => ["mode"; "units"; "language"]
  | autocomplete_place => []
  | query_autocomplete => ["language"]
  | get_place_details => ["language"; "region"]
  | nearby_search => ["language"]
  | text_search => []
  | find_place_from_text => ["language"]
  | get_time_zone => []
  | nearest_roads => []
  | snap_to_roads => ["interpolate"]
  | forecast_days => ["pageSize"; "days"; "languageCode"]
  | forecast_hours => ["unitsSystem"; "pageSize"; "days"; "languageCode"]
  | get_hourly_weather => ["unitsSystem"; "pageSize"; "hours"; "languageCode"]
  | current_conditions => ["unitsSystem"; "languageCode"]
  end.

(** The parameters converted with the [toString] method before they are
    appended. *)
Definition stringified (t : Tool) : list string :=
  match t with
  | get_time_zone => ["timestamp"]
  | snap_to_roads => ["interpolate"]
  | forecast_days => ["pageSize"; "days"]
  | forecast_hours => ["pageSize"; "days"]
  | get_hourly_weather => ["pageSize"; "hours"]
  | _ => []
  end.

(** The [enum] lists of the descriptors. *)
Definition enums (t : Tool) : list (string * list string) :=
  match t with
  | distance_matrix => [("mode", ["driving"; "walking"; "bicycling"; "transit"])]
  | find_place_from_text => [("inputtype", ["textquery"; "phonenumber"])]
  | forecast_hours | get_hourly_weather | current_conditions =>
      [("unitsSystem", ["METRIC"; "IMPERIAL"])]
  | _ => []
  end.

(** What follows the serialised parameters in the URL. *)
Definition raw_suffix (t : Tool) (apiKey : Env) : string :=
  if Spec.concatenates_key t then "&key=" ++ template apiKey else EmptyString.

(** The number of occurrences of a byte. *)
Fixpoint count (c : ascii) (s : string) : nat :=
  match s with
  | EmptyString => 0
  | String x rest => (if Ascii.eqb x c then 1 else 0) + count c rest
  end.

(** The bytes that structure a URL's query. *)
Definition separator (c : ascii) : Prop :=
  c = "&"%char \/ c = "="%char \/ c = "?"%char \/ c = "#"%char.

(** A value ToString accepts. *)
Definition convertible (v : JsVal) : bool :=
  match v with
  | VObj None => false
  | _ => true
  end.

(** A value of parameter [n] on which [.toString()] can be called: not
    [null], and not [undefined] unless a default stands in for it. *)
Definition has_toString (t : Tool) (n : string) (v : JsVal) : bool :=
  match v with
  | VNull => false
  | VUndef => match Spec.lookup n (Spec.documented_defaults t) with
              | Some _ => true
              | None => false
              end
  | _ => true
  end.

(** The arguments objects from which the executor builds a request. *)
Definition accepted (t : Tool) (args : Args) : bool :=
  (forallb (fun n => convertible (prop args n)) (declared t)
   && forallb (fun n => has_toString t n (prop args n)) (stringified t))%bool.

(** Every supplied property has its declared type, and the required
    ones are supplied. *)
Definition schema_valid (t : Tool) (args : Args) : bool :=
  (required_supplied t args
   && forallb (fun p => (is_undefined (prop args (fst p))
                         || has_type (snd p) (prop args (fst p)))%bool)
              (properties (definition t)))%bool.

(** The inverse of [FormUrlencoded.hex_digit] and of
    [FormUrlencoded.percent_encode]. *)
Definition unhex (c : ascii) : N :=
  let n := N_of_ascii c in
  if N.leb n 57 then n - 48 else n - 55.

Definition unpercent (s : string) : ascii :=
  match s with
  | String _ (String h (String l _)) => ascii_of_N (16 * unhex h + unhex l)
  | _ => zero
  end.

End Contract.

(** ** Concrete scenarios *)

Module Scenario.

(** The one-byte string holding a quotation mark. *)
Definition dq : string := String JSON.quotation_mark EmptyString.

(** The transport that answers every request with the given status and
    body. *)
Definition answer (st : Z) (body : Completion Json) : Transport :=
  fun _ => Normal (mkResponse st body).

(** The transport on which every request fails. *)
Definition refuse (message : string) : Transport :=
  fun _ => Throw (ErrorObj message).

(** The body [{ error_message: 'invalid request' }] and its JSON text. *)
Definition invalid_request : Json :=
  JObject [("error_message", JString "invalid request")].

Definition invalid_request_text : string :=
  "{" ++ dq ++ "error_message" ++ dq ++ ":" ++ dq ++ "invalid request" ++ dq ++ "}".

Definition time_zone_args : Args :=
  [("location", VStr "39.6034810,-119.6822510");
   ("timestamp", VNum (NInt 1331161200))].

Definition route_args : Args :=
  [("origins", VStr "Reno, NV"); ("destinations", VStr "Lake Tahoe")].

Definition coordinates : Args :=
  [("latitude", VNum (NFrac "37.4221")); ("longitude", VNum (NInt (-122)))].

(** A route request with optional parameters, two of them falsy. *)
Definition route_options : Args :=
  [("origins", VStr "Reno, NV"); ("destinations", VStr "Lake Tahoe");
   ("departure_time", VNum (NInt 0)); ("avoid", VStr "tolls");
   ("traffic_model", VStr EmptyString)].


(** A key with bytes outside the unreserved set. *)
Definition odd_key : string := "k&v #1".

(** A success body that has an [error] member of its own. *)
Definition quota_notice : Json :=
  JObject [("status", JString "OK"); ("error", JString "quota nearly used")].

(** A route request with a property the descriptor does not declare. *)
Definition route_with_extra : Args :=
  [("callback", VStr "https://example.org/hook"); ("origins", VStr "Reno, NV");
   ("destinations", VStr "Lake Tahoe"); ("key", VStr "stolen")].

(** Coordinates with [pageSize: null]. *)
Definition coordinates_null_page : Args :=
  [("latitude", VNum (NFrac "37.4221")); ("longitude", VNum (NInt (-122)));
   ("pageSize", VNull)].

(** Coordinates with overridden defaults, one of them falsy. *)
Definition coordinates_imperial : Args :=
  [("latitude", VNum (NFrac "37.4221")); ("longitude", VNum (NInt (-122)));
   ("unitsSystem", VStr "KELVIN"); ("pageSize", VNum (NInt 0))].

(** The message of the SyntaxError an HTML error page raises in the
    parser. *)
Definition not_json : string := "Unexpected token '<'".

End Scenario.

(** ** Examples: the executors on concrete inputs *)

Example get_time_zone_missing_timestamp :
  executeFunction get_time_zone (Some "K") (fun _ => Throw (ErrorObj "unreachable"))
    [("location", VStr "1,2")]
  = Normal (error_result
      "An error occurred while fetching time zone information: Cannot read properties of undefined (reading 'toString')").
Proof. reflexivity. Qed.

Example nearest_roads_connection_refused :
  executeFunction nearest_roads (Some "K")
    (fun _ => Throw (ErrorObj "connect ECONNREFUSED 127.0.0.1:443"))
    [("points", VStr "60.17,24.94")]
  = Normal (error_result
      "An error occurred while finding nearest roads: connect ECONNREFUSED 127.0.0.1:443").
Proof. reflexivity. Qed.

Example text_search_falsy_language :
  request text_search (Some "a b&c") [("query", VStr "pizza"); ("language", VStr "")]
  = Normal (GET
      "https://maps.googleapis.com/maps/api/place/textsearch/json?query=pizza&region=en&key=a+b%26c"
      accept_json).
Proof. reflexivity. Qed.

Example snap_to_roads_null_interpolate :
  request snap_to_roads (Some "K") [("path", VStr "1,2|3,4"); ("interpolate", VNull)]
  = Throw (ErrorObj "Cannot read properties of null (reading 'toString')").
Proof. reflexivity. Qed.

Lemma all_tools_complete (t : Tool) : In t all_tools.
Proof. destruct t; simpl; tauto. Qed.

(** Every declared property is required, has a documented default, or is
    under the include-only-if-present policy. *)
Lemma every_property_has_a_policy :
  forallb
    (fun t =>
       forallb
         (fun p =>
            (is_required (definition t) (fst p)
             || match Spec.lookup (fst p) (Spec.documented_defaults t) with
                | Some _ => true
                | None => false
                end
             || existsb (String.eqb (fst p)) (Spec.include_if_present t))%bool)
         (properties (definition t)))
    all_tools = true.
Proof. reflexivity. Qed.

(** ** Strings *)

Section StringFacts.

Lemma string_append_assoc (a b c : string) : (a ++ b) ++ c = a ++ (b ++ c).
Proof.
  induction a as [|x a IH]; simpl; [reflexivity | now rewrite IH].
Qed.

Lemma string_length_append (a b : string) :
  String.length (a ++ b) = String.length a + String.length b.
Proof.
  induction a as [|x a IH]; simpl; [reflexivity | now rewrite IH].
Qed.

Lemma substring_all (s : string) : substring 0 (String.length s) s = s.
Proof.
  induction s as [|x s IH]; simpl; [reflexivity | now rewrite IH].
Qed.

Lemma substring_skip (pre s : string) (n : nat) :
  substring (String.length pre) n (pre ++ s) = substring 0 n s.
Proof.
  induction pre as [|x pre IH]; simpl; [reflexivity | exact IH].
Qed.

Lemma ends_with_append (pre suffix : string) :
  Spec.ends_with suffix (pre ++ suffix) = true.
Proof.
  unfold Spec.ends_with.
  rewrite string_length_append, Nat.add_sub, substring_skip, substring_all.
  apply String.eqb_refl.
Qed.

End StringFacts.

(** ** The serialiser *)

Section SerialiserFacts.

Import FormUrlencoded.

Lemma serialize_snoc (ps : list (string * string)) (kv : string * string) :
  ps <> [] ->
  serialize (ps ++ [kv]) = serialize ps ++ "&" ++ pair kv.
Proof.
  induction ps as [|a ps IH]; intros Hne; [contradiction|].
  destruct ps as [|b ps].
  - reflexivity.
  - change (serialize ((a :: b :: ps) ++ [kv]))
      with (pair a ++ "&" ++ serialize ((b :: ps) ++ [kv])).
    rewrite IH by discriminate.
    change (serialize (a :: b :: ps)) with (pair a ++ "&" ++ serialize (b :: ps)).
    now rewrite !string_append_assoc.
Qed.

Lemma encode_unreserved (s : string) :
  Spec.all_unreserved s = true -> encode s = s.
Proof.
  induction s as [|c s IH]; simpl; intros H; [reflexivity|].
  apply andb_prop in H as [Hc Hs].
  unfold encode_byte. rewrite Hc. simpl. now rewrite IH.
Qed.

Lemma encode_byte_length (c : ascii) : 1 <= String.length (encode_byte c).
Proof.
  unfold encode_byte, percent_encode.
  destruct (unreserved c); [simpl; lia|].
  destruct (Ascii.eqb c " "); simpl; lia.
Qed.

Lemma encode_length (s : string) : String.length s <= String.length (encode s).
Proof.
  induction s as [|c s IH]; simpl; [lia|].
  rewrite string_length_append. pose proof (encode_byte_length c). lia.
Qed.

(** A string with a byte outside the unreserved set is changed by the
    encoder. *)
Lemma encode_changes (s : string) :
  Spec.all_unreserved s = false -> encode s <> s.
Proof.
  induction s as [|c s IH]; simpl; intros H; [discriminate|].
  unfold encode_byte.
  destruct (unreserved c) eqn:Hc; simpl in *.
  - intros E. injection E as E. now apply IH.
  - destruct (Ascii.eqb c " ") eqn:Hsp.
    + apply Ascii.eqb_eq in Hsp. subst c. simpl. discriminate.
    + intros E. apply (f_equal String.length) in E.
      simpl in E. pose proof (encode_length s). lia.
Qed.

End SerialiserFacts.

(** ** Completions and the steps of URL construction *)

Section StepFacts.

Lemma bind_Normal_inv {A B} (m : Completion A) (f : A -> Completion B) (b : B) :
  bind m f = Normal b -> exists a, m = Normal a /\ f a = Normal b.
Proof.
  destruct m as [a|e]; simpl; intros H; [eauto | discriminate].
Qed.

Lemma params_append_inv (ps ps' : URLSearchParams) (n : string) (v : JsVal) :
  params_append ps n v = Normal ps' ->
  exists s, ToString v = Normal s /\ ps' = (ps ++ [(n, s)])%list.
Proof.
  unfold params_append. intros H.
  apply bind_Normal_inv in H as (s & Hs & H).
  injection H as <-. eauto.
Qed.

Lemma params_append_if_truthy_inv (ps ps' : URLSearchParams) (n : string) (v : JsVal) :
  params_append_if_truthy ps n v = Normal ps' ->
  (truthy v = false /\ ps' = ps) \/
  (truthy v = true /\ exists s, ToString v = Normal s /\ ps' = (ps ++ [(n, s)])%list).
Proof.
  unfold params_append_if_truthy. destruct (truthy v); intros H.
  - right. split; [reflexivity|]. now apply params_append_inv.
  - left. injection H as <-. auto.
Qed.

Lemma append_inv (u u' : URL) (n : string) (v : JsVal) :
  append u n v = Normal u' ->
  exists s, ToString v = Normal s /\
            u' = mkURL (origin_path u) (searchParams u ++ [(n, s)])%list.
Proof.
  unfold append. intros H.
  apply bind_Normal_inv in H as (ps & Hps & H).
  apply params_append_inv in Hps as (s & Hs & ->).
  injection H as <-. eauto.
Qed.

Lemma append_if_truthy_inv (u u' : URL) (n : string) (v : JsVal) :
  append_if_truthy u n v = Normal u' ->
  (truthy v = false /\ u' = u) \/
  (truthy v = true /\ exists s, ToString v = Normal s /\
                                u' = mkURL (origin_path u) (searchParams u ++ [(n, s)])%list).
Proof.
  unfold append_if_truthy. destruct (truthy v); intros H.
  - right. split; [reflexivity|]. now apply append_inv.
  - left. injection H as <-. auto.
Qed.

Lemma values_of_app (p : string) (a b : URLSearchParams) :
  Spec.values_of p (a ++ b)%list = (Spec.values_of p a ++ Spec.values_of p b)%list.
Proof.
  unfold Spec.values_of. now rewrite filter_app, map_app.
Qed.

Lemma values_of_snoc (p n s : string) (ps : URLSearchParams) :
  Spec.values_of p (ps ++ [(n, s)])%list = (Spec.values_of p ps ++ Spec.contribution p n [s])%list.
Proof.
  rewrite values_of_app. unfold Spec.contribution, Spec.values_of. simpl.
  now destruct (String.eqb n p).
Qed.

Lemma params_append_effect (p : string) (ps ps' : URLSearchParams) (n : string) (v : JsVal) :
  params_append ps n v = Normal ps' ->
  exists s, ToString v = Normal s /\ Spec.step_effect p n [s] ps ps' /\ ps' <> [].
Proof.
  intros H. apply params_append_inv in H as (s & Hs & ->).
  exists s. repeat split; auto using values_of_snoc.
  all: intros; now destruct ps.
Qed.

Lemma params_append_if_truthy_effect (p : string) (ps ps' : URLSearchParams)
      (n : string) (v : JsVal) :
  params_append_if_truthy ps n v = Normal ps' ->
  exists sent,
    Spec.step_effect p n sent ps ps' /\
    ((truthy v = false /\ sent = []) \/
     (truthy v = true /\ exists s, ToString v = Normal s /\ sent = [s])).
Proof.
  intros H. apply params_append_if_truthy_inv in H as [[Hf ->]|[Ht (s & Hs & ->)]].
  - exists []. split; [|auto]. split; [|auto].
    unfold Spec.contribution. destruct (String.eqb n p); now rewrite app_nil_r.
  - exists [s]. split; [|right; eauto]. split; [apply values_of_snoc|].
    intros; now destruct ps.
Qed.

Lemma append_effect (p : string) (u u' : URL) (n : string) (v : JsVal) :
  append u n v = Normal u' ->
  exists s, ToString v = Normal s /\
            Spec.step_effect p n [s] (searchParams u) (searchParams u') /\
            searchParams u' <> [] /\ origin_path u' = origin_path u.
Proof.
  intros H. apply append_inv in H as (s & Hs & ->). simpl.
  exists s. repeat split; auto using values_of_snoc.
  all: intros; now destruct (searchParams u).
Qed.

Lemma append_if_truthy_effect (p : string) (u u' : URL) (n : string) (v : JsVal) :
  append_if_truthy u n v = Normal u' ->
  exists sent,
    Spec.step_effect p n sent (searchParams u) (searchParams u') /\
    origin_path u' = origin_path u /\
    ((truthy v = false /\ sent = []) \/
     (truthy v = true /\ exists s, ToString v = Normal s /\ sent = [s])).
Proof.
  intros H. apply append_if_truthy_inv in H as [[Hf ->]|[Ht (s & Hs & ->)]]; simpl.
  - exists []. split; [|auto]. split; [|auto].
    unfold Spec.contribution. destruct (String.eqb n p); now rewrite app_nil_r.
  - exists [s]. split; [|split; [reflexivity | right; eauto]].
    split; [apply values_of_snoc|]. intros; now destruct (searchParams u).
Qed.

Lemma prop_default_supplied (args : Args) (n : string) (d : JsVal) :
  prop args n <> VUndef -> prop_default args n d = prop args n.
Proof.
  unfold prop_default. now destruct (prop args n).
Qed.

Lemma truthy_not_undefined (v : JsVal) : truthy v = true -> v <> VUndef.
Proof. now destruct v. Qed.

End StepFacts.

(** ** Results of the executors *)

Section Outcomes.

Variables (t : Tool) (apiKey : Env) (fetch : Transport) (args : Args).

Lemma outcome_url_failure (e : Thrown) :
  request t apiKey args = Throw e ->
  executeFunction t apiKey fetch args
  = Normal (error_result (failure_prefix t ++ describe e)).
Proof.
  intros H. unfold executeFunction. now rewrite H.
Qed.

Lemma outcome_transport_failure (req : Request) (e : Thrown) :
  request t apiKey args = Normal req ->
  fetch req = Throw e ->
  executeFunction t apiKey fetch args
  = Normal (error_result (failure_prefix t ++ describe e)).
Proof.
  intros H F. unfold executeFunction, fetch_json. rewrite H. simpl. now rewrite F.
Qed.

Lemma outcome_parse_failure (req : Request) (r : Response) (e : Thrown) :
  request t apiKey args = Normal req ->
  fetch req = Normal r ->
  json r = Throw e ->
  executeFunction t apiKey fetch args
  = Normal (error_result (failure_prefix t ++ describe e)).
Proof.
  intros H F J. unfold executeFunction, fetch_json. rewrite H. simpl. rewrite F. simpl.
  rewrite J. now destruct (ok r).
Qed.

Lemma outcome_rejection (req : Request) (r : Response) (body : Json) :
  request t apiKey args = Normal req ->
  fetch req = Normal r ->
  ok r = false ->
  json r = Normal body ->
  executeFunction t apiKey fetch args
  = Normal (error_result (failure_prefix t ++ JSON.stringify body)).
Proof.
  intros H F K J. unfold executeFunction, fetch_json. rewrite H. simpl. rewrite F. simpl.
  now rewrite K, J.
Qed.

Lemma outcome_success (req : Request) (r : Response) (body : Json) :
  request t apiKey args = Normal req ->
  fetch req = Normal r ->
  ok r = true ->
  json r = Normal body ->
  executeFunction t apiKey fetch args = Normal body.
Proof.
  intros H F K J. unfold executeFunction, fetch_json. rewrite H. simpl. rewrite F. simpl.
  now rewrite K, J.
Qed.

End Outcomes.

(** C1.  Whatever the tool, the configuration, the transport and the
    arguments object, the executor settles with a value and never with
    an exception.  When the request is built, the transport answers with
    a success status and the body parses, that value is the parsed body.
    When the URL cannot be built, the transport fails, the status is not
    a success status, or the body does not parse, the value is an object
    whose only member is [error], holding a string: the tool's prefix
    followed by the message of the error that was thrown (the
    stringified value, when what was thrown is not an error), or by the
    stringified body of the rejection. *)
Theorem executor_always_resolves (t : Tool) (apiKey : Env) (fetch : Transport) (args : Args) :
  (exists result, executeFunction t apiKey fetch args = Normal result)
  /\ (forall req r body,
        request t apiKey args = Normal req -> fetch req = Normal r ->
        ok r = true -> json r = Normal body ->
        executeFunction t apiKey fetch args = Normal body)
  /\ (forall e,
        request t apiKey args = Throw e ->
        executeFunction t apiKey fetch args
        = Normal (JObject
            [("error",
              JString (failure_prefix t
                       ++ match e with
                          | ErrorObj message => message
                          | NonError value => JSON.stringify value
                          end))]))
  /\ (forall req e,
        request t apiKey args = Normal req -> fetch req = Throw e ->
        executeFunction t apiKey fetch args
        = Normal (JObject
            [("error",
              JString (failure_prefix t
                       ++ match e with
                          | ErrorObj message => message
                          | NonError value => JSON.stringify value
                          end))]))
  /\ (forall req r body,
        request t apiKey args = Normal req -> fetch req = Normal r ->
        ok r = false -> json r = Normal body ->
        executeFunction t apiKey fetch args
        = Normal (JObject
            [("error", JString (failure_prefix t ++ JSON.stringify body))]))
  /\ (forall req r e,
        request t apiKey args = Normal req -> fetch req = Normal r ->
        json r = Throw e ->
        executeFunction t apiKey fetch args
        = Normal (JObject
            [("error",
              JString (failure_prefix t
                       ++ match e with
                          | ErrorObj message => message
                          | NonError value => JSON.stringify value
                          end))])).
Proof.
  split; [|split; [|split; [|split; [|split]]]].
  - unfold executeFunction.
    destruct (request t apiKey args) as [req|e]; simpl; [|eauto].
    unfold fetch_json. destruct (fetch req) as [r|e]; simpl; [|eauto].
    destruct (ok r); simpl; destruct (json r) as [body|e]; simpl; eauto.
  - intros req r body. apply outcome_success.
  - intros e H. rewrite (outcome_url_failure _ _ _ _ _ H). now destruct e.
  - intros req e H F. rewrite (outcome_transport_failure _ _ _ _ _ _ H F).
    now destruct e.
  - intros req r body H F K J. now rewrite (outcome_rejection _ _ _ _ _ _ _ H F K J).
  - intros req r e H F J. rewrite (outcome_parse_failure _ _ _ _ _ _ _ H F J).
    now destruct e.
Qed.

(** C3, as stated, fails: for distance_matrix, on an HTTP 400 whose body
    is [{ error_message: 'invalid request' }], the [error] member is not
    the stringified body alone. *)
Lemma distance_matrix_400_is_prefixed :
  JSON.stringify Scenario.invalid_request = Scenario.invalid_request_text
  /\ executeFunction distance_matrix (Some "KEY")
       (Scenario.answer 400 (Normal Scenario.invalid_request)) Scenario.route_args
     <> Normal (JObject [("error", JString Scenario.invalid_request_text)])
  /\ executeFunction distance_matrix (Some "KEY")
       (Scenario.answer 400 (Normal Scenario.invalid_request)) Scenario.route_args
     = Normal (JObject
         [("error",
           JString ("An error occurred while fetching the distance matrix: "
                    ++ Scenario.invalid_request_text))]).
Proof.
  split; [reflexivity|]. split; [vm_compute; discriminate | reflexivity].
Qed.

(** C3, amended.  For distance_matrix, when the request is built and the
    endpoint answers with HTTP 400 and the body
    [{ error_message: 'invalid request' }], the result is the object
    whose only member is [error], holding the text
    [An error occurred while fetching the distance matrix: ] followed by
    the whole stringified body. *)
Theorem distance_matrix_400_result
        (apiKey : Env) (fetch : Transport) (args : Args) (req : Request) :
  request distance_matrix apiKey args = Normal req ->
  fetch req
  = Normal (mkResponse 400
              (Normal (JObject [("error_message", JString "invalid request")]))) ->
  executeFunction distance_matrix apiKey fetch args
  = Normal (JObject
      [("error",
        JString ("An error occurred while fetching the distance matrix: {"
                 ++ Scenario.dq ++ "error_message" ++ Scenario.dq ++ ":"
                 ++ Scenario.dq ++ "invalid request" ++ Scenario.dq ++ "}"))]).
Proof.
  intros H F.
  now rewrite (outcome_rejection _ _ _ _ _ _ _ H F eq_refl eq_refl).
Qed.

Lemma distance_matrix_400_result_witness :
  executeFunction distance_matrix (Some "KEY")
    (Scenario.answer 400
       (Normal (JObject [("error_message", JString "invalid request")])))
    Scenario.route_args
  = Normal (JObject
      [("error",
        JString ("An error occurred while fetching the distance matrix: {"
                 ++ Scenario.dq ++ "error_message" ++ Scenario.dq ++ ":"
                 ++ Scenario.dq ++ "invalid request" ++ Scenario.dq ++ "}"))])
  /\ String.length
       ("An error occurred while fetching the distance matrix: {"
        ++ Scenario.dq ++ "error_message" ++ Scenario.dq ++ ":"
        ++ Scenario.dq ++ "invalid request" ++ Scenario.dq ++ "}") = 89.
Proof.
  split; [|reflexivity].
  eapply distance_matrix_400_result; reflexivity.
Defined.

(** C6.  For every tool, when the request is built, the endpoint answers
    with a status outside the success range and parsing the body raises
    an error with message [message], the result is the object whose only
    member is [error], holding the tool's fixed prefix followed by
    [message]: the failure of the parse is what is reported.  The status
    is lost: a response with any other status whose body fails to parse
    in the same way gives the same result. *)
Theorem non_json_error_body
        (t : Tool) (apiKey : Env) (fetch : Transport) (args : Args)
        (req : Request) (r : Response) (message : string) :
  request t apiKey args = Normal req ->
  fetch req = Normal r ->
  ok r = false ->
  json r = Throw (ErrorObj message) ->
  executeFunction t apiKey fetch args
  = Normal (JObject [("error", JString (failure_prefix t ++ message))])
  /\ (forall st,
        executeFunction t apiKey (fun _ => Normal (mkResponse st (json r))) args
        = Normal (JObject [("error", JString (failure_prefix t ++ message))])).
Proof.
  intros H F _ J.
  rewrite (outcome_parse_failure _ _ _ _ _ _ _ H F J).
  split; [reflexivity|].
  intros st.
  rewrite (outcome_parse_failure t apiKey _ args req (mkResponse st (json r))
             (ErrorObj message) H eq_refl J).
  reflexivity.
Qed.

Lemma non_json_error_body_witness :
  executeFunction get_time_zone (Some "KEY")
    (Scenario.answer 502 (Throw (ErrorObj "Unexpected token '<'")))
    Scenario.time_zone_args
  = Normal (JObject
      [("error",
        JString "An error occurred while fetching time zone information: Unexpected token '<'")])
  /\ executeFunction get_time_zone (Some "KEY")
       (Scenario.answer 404 (Throw (ErrorObj "Unexpected token '<'")))
       Scenario.time_zone_args
     = Normal (JObject
         [("error",
           JString "An error occurred while fetching time zone information: Unexpected token '<'")]).
Proof.
  pose proof (non_json_error_body get_time_zone (Some "KEY")
                (Scenario.answer 502 (Throw (ErrorObj "Unexpected token '<'")))
                Scenario.time_zone_args _ _ "Unexpected token '<'"
                eq_refl eq_refl eq_refl eq_refl) as (H1 & H2).
  split; [exact H1 | exact (H2 404%Z)].
Defined.

(** C7.  With a configured key [k], get_time_zone on
    [{ location: '39.6034810,-119.6822510', timestamp: 1331161200 }]
    hands [fetch] a GET request whose URL is
    [https://www.googleapis.com/maps/api/timezone/json?location=39.6034810%2C-119.6822510&timestamp=1331161200&key=]
    followed by the key as the query-parameter encoder writes it; a key
    made of unreserved bytes is written as it is. *)
Theorem get_time_zone_scenario (k : string) :
  request get_time_zone (Some k) Scenario.time_zone_args
  = Normal (mkRequest "GET"
      ("https://www.googleapis.com/maps/api/timezone/json?location=39.6034810%2C-119.6822510&timestamp=1331161200&key="
       ++ FormUrlencoded.encode k)
      [("Accept", "application/json")])
  /\ (Spec.all_unreserved k = true -> FormUrlencoded.encode k = k).
Proof.
  split; [reflexivity | apply encode_unreserved].
Qed.

(** C8.  Every request an executor builds is a GET request; its headers
    are [Content-Type: application/json] alone for forecast_days,
    forecast_hours, get_hourly_weather and current_conditions, and
    [Accept: application/json] alone for the other tools, whatever the
    arguments and the configuration. *)
Theorem header_policy_fixed (t : Tool) (apiKey : Env) (args : Args) (req : Request) :
  request t apiKey args = Normal req ->
  method req = "GET" /\ headers req = Spec.header_policy t.
Proof.
  intros H.
  destruct t; cbn [request] in H;
    match type of H with ?f _ _ = _ => unfold f in H end;
    cbv zeta in H;
    apply bind_Normal_inv in H as (u & _ & H);
    injection H as <-; split; reflexivity.
Qed.

Lemma header_policy_fixed_witness :
  exists req,
    request forecast_hours (Some "KEY") Scenario.coordinates = Normal req
    /\ method req = "GET"
    /\ headers req = [("Content-Type", "application/json")].
Proof.
  eexists. split; [reflexivity|].
  apply (header_policy_fixed forecast_hours (Some "KEY") Scenario.coordinates).
  reflexivity.
Defined.

Example nearest_roads_headers :
  request nearest_roads (Some "KEY") [("points", VStr "60.17,24.94")]
  = Normal (mkRequest "GET"
      "https://roads.googleapis.com/v1/nearestRoads?points=60.17%2C24.94&key=KEY"
      [("Accept", "application/json")]).
Proof. reflexivity. Qed.

(** C10.  For every tool, when the request is built and the endpoint
    answers with a success status and a body that parses, the result is
    that body, unchanged.  There is a success body, returned as it is on
    HTTP 200, that passes the documented failure test (an [error] member
    holding a string), as every failure result does. *)
Theorem success_body_verbatim :
  (forall t apiKey fetch args req r body,
      request t apiKey args = Normal req -> fetch req = Normal r ->
      ok r = true -> json r = Normal body ->
      executeFunction t apiKey fetch args = Normal body)
  /\ (exists body,
        Spec.failure_test body = true
        /\ (forall t apiKey args req,
              request t apiKey args = Normal req ->
              executeFunction t apiKey (Scenario.answer 200 (Normal body)) args = Normal body)
        /\ executeFunction distance_matrix (Some "KEY")
             (Scenario.answer 200 (Normal body)) Scenario.route_args = Normal body)
  /\ (forall s, Spec.failure_test (error_result s) = true).
Proof.
  split; [|split].
  - intros. eapply outcome_success; eauto.
  - exists Scenario.quota_notice. split; [reflexivity|]. split; [|reflexivity].
    intros t apiKey args req H.
    eapply outcome_success; eauto; reflexivity.
  - reflexivity.
Qed.

(** ** Walking through the construction of a URL *)

(** Splits a successful sequence of steps into its steps. *)
Ltac chain H :=
  repeat lazymatch type of H with
  | bind _ _ = Normal _ =>
      let x := fresh "x" in
      let Hs := fresh "Hs" in
      apply bind_Normal_inv in H; destruct H as (x & Hs & H); cbv beta in H
  end.

(** Unfolds the builder of a tool in [H] and splits it into its steps. *)
Ltac open_builder H :=
  cbv zeta in H;
  try match type of H with
      | bind _ (fun url => Normal (searchParams url)) = Normal _ =>
          let u := fresh "u" in
          let Hu := fresh "Hu" in
          apply bind_Normal_inv in H; destruct H as (u & Hu & H);
          injection H as <-; rename Hu into H
      end;
  match type of H with
  | ?f _ = _ => unfold f in H
  | ?f _ _ = _ => unfold f in H
  end;
  cbv zeta in H; chain H;
  try match type of H with
      | (if ?b then _ else Normal _) = Normal _ => destruct b eqn:?; [| injection H as <-]
      end.

(** Replaces every step by its effect on the values sent under [p]. *)
Ltac effects p :=
  repeat match goal with
  | H : append _ _ _ = Normal _ |- _ =>
      apply (append_effect p) in H; destruct H as (? & ? & [? ?] & ? & ?)
  | H : append_if_truthy _ _ _ = Normal _ |- _ =>
      apply (append_if_truthy_effect p) in H; destruct H as (? & [? ?] & ? & ?)
  | H : params_append _ _ _ = Normal _ |- _ =>
      apply (params_append_effect p) in H; destruct H as (? & ? & [? ?] & ?)
  | H : params_append_if_truthy _ _ _ = Normal _ |- _ =>
      apply (params_append_if_truthy_effect p) in H; destruct H as (? & [? ?] & ?)
  end.

(** Sums the effects up, from the last step back to the empty list. *)
Ltac collect p :=
  repeat match goal with
  | H : Spec.values_of p _ = _ |- _ => rewrite H; clear H
  end;
  cbn [Spec.contribution String.eqb Ascii.eqb Bool.eqb new_URL searchParams
       Spec.values_of filter map app];
  rewrite ?app_nil_r.

Ltac the_name := match goal with |- context [Spec.values_of ?p _] => p end.





(** ** The key in the request *)

Section KeyFacts.

Lemma Normal_inj {A} (a b : A) : Normal a = Normal b -> a = b.
Proof. congruence. Qed.

Lemma ToString_env_value (apiKey : Env) :
  ToString (env_value apiKey) = Normal (template apiKey).
Proof. now destruct apiKey. Qed.

Lemma href_nonempty (u : URL) :
  searchParams u <> [] ->
  href u = origin_path u ++ "?" ++ FormUrlencoded.serialize (searchParams u).
Proof. unfold href. now destruct (searchParams u). Qed.

Lemma serialize_key_last (ps : URLSearchParams) (pre s : string) :
  ps <> [] ->
  Spec.ends_with ("&key=" ++ FormUrlencoded.encode s)
    (pre ++ FormUrlencoded.serialize (ps ++ [("key", s)])) = true.
Proof.
  intros Hne. rewrite serialize_snoc by assumption.
  rewrite <- string_append_assoc.
  change ("&" ++ FormUrlencoded.pair ("key", s))
    with ("&key=" ++ FormUrlencoded.encode s).
  apply ends_with_append.
Qed.

Lemma serialize_with_key (a : string * string) (l : list (string * string)) (k : string) :
  FormUrlencoded.serialize ((a :: l) ++ [("key", k)])
  = FormUrlencoded.serialize (a :: l) ++ "&key=" ++ FormUrlencoded.encode k.
Proof.
  now rewrite serialize_snoc by discriminate.
Qed.

Lemma params_key_last (ps ps' : URLSearchParams) (apiKey : Env) (pre : string) :
  params_append ps "key" (env_value apiKey) = Normal ps' ->
  ps <> [] ->
  Spec.ends_with ("&key=" ++ FormUrlencoded.encode (template apiKey))
    (pre ++ FormUrlencoded.serialize ps') = true.
Proof.
  intros H Hne. apply params_append_inv in H as (s & Hs & ->).
  rewrite ToString_env_value in Hs. injection Hs as <-.
  now apply serialize_key_last.
Qed.

Lemma url_key_last (u u' : URL) (apiKey : Env) :
  append u "key" (env_value apiKey) = Normal u' ->
  searchParams u <> [] ->
  Spec.ends_with ("&key=" ++ FormUrlencoded.encode (template apiKey)) (href u') = true.
Proof.
  intros H Hne. apply append_inv in H as (s & Hs & ->).
  rewrite ToString_env_value in Hs. injection Hs as <-.
  rewrite href_nonempty by (simpl; now destruct (searchParams u)).
  simpl. change (String "?" ?x) with ("?" ++ x).
  rewrite <- string_append_assoc. now apply serialize_key_last.
Qed.

Lemma is_undefined_inv (v : JsVal) : is_undefined v = true -> v = VUndef.
Proof. now destruct v. Qed.

Lemma nonempty_key_truthy (k : string) : k <> "" -> truthy (VStr k) = true.
Proof.
  intros Hk. simpl. now destruct (String.eqb_spec k "").
Qed.

Lemma reserved_key_nonempty (k : string) : Spec.all_unreserved k = false -> k <> "".
Proof. intros H ->. discriminate. Qed.

End KeyFacts.

Create HintDb builders.
#[local] Hint Unfold
  distance_matrix_request distance_matrix_url
  autocomplete_place_request autocomplete_place_url
  query_autocomplete_request query_autocomplete_url
  get_place_details_request get_place_details_url
  nearby_search_request nearby_search_url
  text_search_request text_search_params
  find_place_from_text_request find_place_from_text_url
  get_time_zone_request get_time_zone_url
  nearest_roads_request nearest_roads_url
  snap_to_roads_request snap_to_roads_url
  forecast_days_request forecast_days_url
  forecast_hours_request forecast_hours_url
  get_hourly_weather_request get_hourly_weather_url
  current_conditions_request current_conditions_url : builders.

(** Uses what is known to hold before a step for what holds after it. *)
Ltac forward :=
  repeat match goal with
  | Himp : ?P -> _, HP : ?P |- _ => specialize (Himp HP)
  end.

(** Runs the steps again, each with the result it is known to have. *)
Ltac replay :=
  repeat match goal with
  | Hs : ?m = Normal _ |- context [bind ?m _] => rewrite Hs; cbn [bind]
  end.

(** Whenever the executor adds the key, the URL it sends ends with it. *)
Lemma request_key_suffix (t : Tool) (apiKey : Env) (args : Args) (req : Request) :
  request t apiKey args = Normal req ->
  Spec.appends_key t apiKey = true ->
  Spec.ends_with ("&key=" ++ Spec.key_in_url t apiKey) (request_url req) = true.
Proof.
  intros H K.
  destruct t; cbn [request] in H;
    match type of H with ?f _ _ = _ => unfold f in H end; cbv zeta in H;
    apply bind_Normal_inv in H as (u & Hu & H); apply Normal_inj in H; subst req;
    cbn [request_url GET Spec.key_in_url Spec.concatenates_key];
    try apply ends_with_append;
    open_builder Hu;
    try (cbn [Spec.appends_key] in K; congruence);
    try rewrite <- string_append_assoc;
    (eapply url_key_last + eapply params_key_last); try eassumption;
    effects "key"; forward; assumption.
Qed.

(** Whether a request is built does not depend on the configured key. *)
Lemma request_whatever_key (t : Tool) (apiKey other : Env) (args : Args) (req : Request) :
  request t apiKey args = Normal req ->
  exists req', request t other args = Normal req'.
Proof.
  intros H.
  destruct t; cbn [request] in H |- *;
    match type of H with ?f _ _ = _ => unfold f in H |- * end; cbv zeta in H |- *;
    apply bind_Normal_inv in H as (u & Hu & _);
    open_builder Hu;
    match goal with
    | |- context [bind (?f _ _) _] => unfold f
    | |- context [bind (?f _) _] => unfold f
    end;
    cbv zeta; replay;
    destruct other as [k|]; cbn [env_value truthy];
    try destruct (negb (k =? "")%string);
    unfold append, params_append; cbn [ToString bind]; eexists; reflexivity.
Qed.

(** forecast_hours with a falsy key: the parameter list has no [key]. *)
Lemma forecast_hours_without_key (apiKey : Env) (args : Args) (req : Request) :
  request forecast_hours apiKey args = Normal req ->
  truthy (env_value apiKey) = false ->
  exists ps,
    query_params forecast_hours apiKey args = Normal ps
    /\ Spec.values_of "key" ps = []
    /\ request_url req
       = Spec.endpoint forecast_hours ++ "?" ++ FormUrlencoded.serialize ps.
Proof.
  intros H K.
  cbn [request] in H. unfold forecast_hours_request in H.
  apply bind_Normal_inv in H as (u & Hu & H). apply Normal_inj in H. subst req.
  exists (searchParams u). cbn [query_params]. cbv zeta. rewrite Hu. cbn [bind].
  split; [reflexivity|].
  open_builder Hu; [congruence|].
  effects "key". forward. split; [collect "key"; reflexivity|].
  cbn [request_url GET]. rewrite href_nonempty by assumption.
  repeat match goal with H : origin_path _ = _ |- _ => rewrite H; clear H end.
  reflexivity.
Qed.

(** C2, as stated, fails: with no key configured, forecast_hours builds
    and sends a request whose URL carries no [key] parameter at all. *)
Lemma forecast_hours_sends_no_key :
  request forecast_hours None Scenario.coordinates
  = Normal (GET
      "https://weather.googleapis.com/v1/forecast/hours:lookup?location.latitude=37.4221&location.longitude=-122&unitsSystem=METRIC&pageSize=24&days=240&languageCode=en"
      content_type_json)
  /\ query_params forecast_hours None Scenario.coordinates
     = Normal [("location.latitude", "37.4221"); ("location.longitude", "-122");
               ("unitsSystem", "METRIC"); ("pageSize", "24"); ("days", "240");
               ("languageCode", "en")]
  /\ Spec.ends_with ("&key=" ++ Spec.key_in_url forecast_hours None)
       "https://weather.googleapis.com/v1/forecast/hours:lookup?location.latitude=37.4221&location.longitude=-122&unitsSystem=METRIC&pageSize=24&days=240&languageCode=en"
     = false.
Proof.
  repeat split; reflexivity.
Qed.

(** C2, amended.  Whenever an executor builds its request: unless the
    tool is forecast_hours and the configured key is absent or empty,
    the URL handed to [fetch] ends with [&key=] followed by the
    configured key, which is
    the text [undefined] when the configuration value is absent, and
    which is form-urlencoded except in forecast_days, get_hourly_weather
    and current_conditions; forecast_hours with an absent or empty key
    sends a request without any [key] parameter; and the request is
    built whatever the configuration value is. *)
Theorem key_parameter_policy (t : Tool) (apiKey : Env) (args : Args) (req : Request) :
  request t apiKey args = Normal req ->
  (Spec.appends_key t apiKey = true ->
     Spec.ends_with ("&key=" ++ Spec.key_in_url t apiKey) (request_url req) = true)
  /\ (Spec.appends_key t apiKey = false ->
        t = forecast_hours
        /\ exists ps,
             query_params t apiKey args = Normal ps
             /\ Spec.values_of "key" ps = []
             /\ request_url req = Spec.endpoint t ++ "?" ++ FormUrlencoded.serialize ps)
  /\ (forall other, exists req', request t other args = Normal req').
Proof.
  intros H. split; [|split].
  - intros K. eapply request_key_suffix; eauto.
  - intros K. destruct t; try discriminate K.
    split; [reflexivity|]. now apply forecast_hours_without_key.
  - intros other. eapply request_whatever_key; eauto.
Qed.

Lemma key_parameter_policy_witness :
  exists req,
    request query_autocomplete None [("input", VStr "pizza near")] = Normal req
    /\ Spec.ends_with "&key=undefined" (request_url req) = true
    /\ (forall other,
          exists req', request query_autocomplete other [("input", VStr "pizza near")]
                       = Normal req').
Proof.
  eexists. split; [reflexivity|].
  pose proof (key_parameter_policy query_autocomplete None
                [("input", VStr "pizza near")] _ eq_refl) as (Hkey & _ & Hsent).
  split; [exact (Hkey eq_refl) | exact Hsent].
Defined.

(** C9.  For a configured key [k] with a byte outside the unreserved
    set: the encoder changes [k]; the URL that forecast_days,
    get_hourly_weather and current_conditions hand to [fetch] ends with
    [&key=] followed by [k] itself, joined as text; the URL every other
    tool hands to [fetch] ends with [&key=] followed by the encoded
    key. *)
Theorem raw_key_concatenation (t : Tool) (k : string) (args : Args) (req : Request) :
  Spec.all_unreserved k = false ->
  request t (Some k) args = Normal req ->
  FormUrlencoded.encode k <> k
  /\ (Spec.concatenates_key t = true ->
        Spec.ends_with ("&key=" ++ k) (request_url req) = true)
  /\ (Spec.concatenates_key t = false ->
        Spec.ends_with ("&key=" ++ FormUrlencoded.encode k) (request_url req) = true).
Proof.
  intros Hk H.
  assert (K : Spec.appends_key t (Some k) = true).
  { destruct t; try reflexivity.
    apply nonempty_key_truthy. now apply reserved_key_nonempty. }
  pose proof (request_key_suffix _ _ _ _ H K) as S.
  unfold Spec.key_in_url in S. cbn [template] in S.
  split; [now apply encode_changes|].
  split; intros C; now rewrite C in S.
Qed.

Lemma raw_key_concatenation_witness :
  exists req,
    request current_conditions (Some Scenario.odd_key) Scenario.coordinates = Normal req
    /\ request_url req
       = "https://weather.googleapis.com/v1/currentConditions:lookup?location.latitude=37.4221&location.longitude=-122&unitsSystem=METRIC&languageCode=en&key=k&v #1"
    /\ FormUrlencoded.encode Scenario.odd_key <> Scenario.odd_key
    /\ Spec.ends_with ("&key=" ++ Scenario.odd_key) (request_url req) = true.
Proof.
  eexists. split; [reflexivity|]. split; [reflexivity|].
  pose proof (raw_key_concatenation current_conditions Scenario.odd_key
                Scenario.coordinates _ eq_refl eq_refl) as (Hne & Hraw & _).
  split; [exact Hne | exact (Hraw eq_refl)].
Defined.

(** What the other tools make of the same key. *)
Example encoded_key_in_nearest_roads :
  request nearest_roads (Some Scenario.odd_key) [("points", VStr "60.17,24.94")]
  = Normal (GET
      "https://roads.googleapis.com/v1/nearestRoads?points=60.17%2C24.94&key=k%26v+%231"
      accept_json).
Proof. reflexivity. Qed.

(** Reads the conditions on the arguments object off the hypotheses. *)
Ltac split_conditions :=
  repeat match goal with
  | H : (_ && _)%bool = true |- _ => apply andb_prop in H; destruct H
  end.

Ltac read_arguments args :=
  repeat match goal with
  | H : is_undefined (prop args _) = true |- _ => apply is_undefined_inv in H
  | H : has_type _ (prop args ?n) = true |- _ =>
      let E := fresh "E" in
      destruct (prop args n) as [| |?|[?|?|?|]|?|?] eqn:E; try discriminate H; clear H
  end.

(** C4.  With a key configured (a non-empty string [k]), for every tool
    and every arguments object that holds a value of the declared type
    for each required property and leaves every optional property out:
    the request is built, and its URL is the endpoint, [?], the required
    parameters with their values and the optional parameters that have a
    documented default with that default, in declaration order and
    form-urlencoded, and last [&key=] with the key.  Optional parameters
    without a default do not occur. *)
Theorem required_only_request (t : Tool) (k : string) (args : Args) :
  k <> "" ->
  required_supplied t args = true ->
  optional_absent t args = true ->
  exists req,
    request t (Some k) args = Normal req
    /\ request_url req
       = Spec.endpoint t ++ "?"
         ++ FormUrlencoded.serialize (Spec.documented_query t args)
         ++ "&key=" ++ Spec.key_in_url t (Some k).
Proof.
  intros Hk Hr Ho.
  pose proof (nonempty_key_truthy k Hk) as Ht.
  unfold required_supplied, optional_absent in Hr, Ho.
  destruct t;
    cbn [definition properties required forallb is_required existsb fst snd
         String.eqb Ascii.eqb Bool.eqb negb orb andb] in Hr, Ho;
    split_conditions; read_arguments args;
    cbn [request]; autounfold with builders;
    unfold prop_default, Spec.documented_query; cbv zeta;
    cbn [definition properties required flat_map is_required existsb fst snd
         String.eqb Ascii.eqb Bool.eqb negb orb andb app
         Spec.lookup Spec.documented_defaults env_value];
    repeat match goal with E : prop args _ = _ |- _ => rewrite !E; clear E end;
    try rewrite Ht;
    cbn [bind append params_append append_if_truthy params_append_if_truthy truthy
         ToString toString_method String.eqb Ascii.eqb Bool.eqb negb
         new_URL origin_path searchParams app number_truthy Z.eqb
         Spec.value_text Spec.key_in_url Spec.concatenates_key template];
    (eexists; split; [reflexivity|]);
    cbn [request_url GET];
    rewrite <- ?serialize_with_key;
    reflexivity.
Qed.

Lemma required_only_request_witness :
  exists req,
    request distance_matrix (Some "KEY") Scenario.route_args = Normal req
    /\ request_url req
       = "https://maps.googleapis.com/maps/api/distancematrix/json?origins=Reno%2C+NV&destinations=Lake+Tahoe&mode=driving&units=metric&language=en&traffic_model=best_guess&key=KEY".
Proof.
  apply (required_only_request distance_matrix "KEY" Scenario.route_args);
    [discriminate | reflexivity | reflexivity].
Defined.

Example required_only_query_autocomplete :
  request query_autocomplete (Some "KEY") [("input", VStr "pizza near")]
  = Normal (GET
      "https://www.googleapis.com/maps/api/place/queryautocomplete/json?input=pizza+near&language=en&key=KEY"
      accept_json).
Proof. reflexivity. Qed.

Example required_only_forecast_hours_without_key :
  Spec.documented_query forecast_hours Scenario.coordinates
  = [("location.latitude", "37.4221"); ("location.longitude", "-122");
     ("unitsSystem", "METRIC"); ("pageSize", "24"); ("days", "240");
     ("languageCode", "en")].
Proof. reflexivity. Qed.

(** ** Further facts on strings and on the serialiser *)

Section MoreStringFacts.

Lemma string_append_empty_r (s : string) : s ++ EmptyString = s.
Proof. induction s as [|c s IH]; simpl; [reflexivity | now rewrite IH]. Qed.

Lemma string_append_cancel_l (a b c : string) : a ++ b = a ++ c -> b = c.
Proof. induction a as [|x a IH]; simpl; intros E; [exact E | injection E; auto]. Qed.

Lemma string_append_cancel_r (a b s : string) : a ++ s = b ++ s -> a = b.
Proof.
  revert b. induction a as [|x a IH]; intros [|y b] E; simpl in E.
  - reflexivity.
  - exfalso. apply (f_equal String.length) in E. simpl in E.
    rewrite string_length_append in E. lia.
  - exfalso. apply (f_equal String.length) in E. simpl in E.
    rewrite string_length_append in E. lia.
  - injection E as -> E. f_equal. auto.
Qed.

Lemma prefix_append (a b : string) : prefix a (a ++ b) = true.
Proof.
  induction a as [|x a IH]; simpl; [now destruct b|].
  now destruct (ascii_dec x x).
Qed.

Lemma count_append (c : ascii) (a b : string) :
  Contract.count c (a ++ b) = Contract.count c a + Contract.count c b.
Proof. induction a as [|x a IH]; simpl; [reflexivity | rewrite IH; lia]. Qed.

(** Two strings cut at the first occurrence of a byte. *)
Lemma split_at_first (c : ascii) (a a' t t' : string) :
  Contract.count c a = 0 -> Contract.count c a' = 0 ->
  a ++ String c t = a' ++ String c t' -> a = a' /\ t = t'.
Proof.
  revert a'. induction a as [|x a IH]; intros [|y a'] Ha Ha' E; simpl in *.
  - injection E as ->. auto.
  - injection E as <- _. rewrite Ascii.eqb_refl in Ha'. discriminate.
  - injection E as -> _. rewrite Ascii.eqb_refl in Ha. discriminate.
  - injection E as -> E.
    destruct (Ascii.eqb y c); [discriminate|].
    destruct (IH a' Ha Ha' E) as [-> ->]. auto.
Qed.

End MoreStringFacts.

Section EncoderFacts.

Import FormUrlencoded.

Lemma encode_byte_no_separator (c x : ascii) :
  Contract.separator c -> Contract.count c (encode_byte x) = 0.
Proof.
  intros [-> | [-> | [-> | ->]]]; destruct x as [[] [] [] [] [] [] [] []]; reflexivity.
Qed.

Lemma encode_no_separator (c : ascii) (s : string) :
  Contract.separator c -> Contract.count c (encode s) = 0.
Proof.
  intros Hc. induction s as [|x s IH]; simpl; [reflexivity|].
  now rewrite count_append, encode_byte_no_separator, IH.
Qed.

Lemma pair_count (c : ascii) (kv : string * string) :
  Contract.separator c ->
  Contract.count c (pair kv) = if Ascii.eqb c "=" then 1 else 0.
Proof.
  intros Hc. unfold pair. rewrite !count_append, !encode_no_separator by assumption.
  destruct Hc as [-> | [-> | [-> | ->]]]; reflexivity.
Qed.

Lemma serialize_count (c : ascii) (ps : list (string * string)) :
  Contract.separator c ->
  Contract.count c (serialize ps)
  = if Ascii.eqb c "&" then length ps - 1
    else if Ascii.eqb c "=" then length ps
    else 0.
Proof.
  intros Hc. induction ps as [|kv [|kv' ps] IH].
  - destruct Hc as [-> | [-> | [-> | ->]]]; reflexivity.
  - simpl serialize. rewrite pair_count by assumption.
    destruct Hc as [-> | [-> | [-> | ->]]]; reflexivity.
  - change (serialize (kv :: kv' :: ps)) with (pair kv ++ "&" ++ serialize (kv' :: ps)).
    rewrite !count_append, pair_count, IH by assumption.
    destruct Hc as [-> | [-> | [-> | ->]]]; simpl; lia.
Qed.

Lemma unpercent_percent (c : ascii) : Contract.unpercent (percent_encode c) = c.
Proof. destruct c as [[] [] [] [] [] [] [] []]; reflexivity. Qed.

Lemma encode_byte_cases (c : ascii) :
  (unreserved c = true /\ encode_byte c = String c EmptyString)
  \/ (unreserved c = false /\ c = " "%char /\ encode_byte c = "+")
  \/ (unreserved c = false /\ c <> " "%char /\ encode_byte c = percent_encode c).
Proof.
  unfold encode_byte. destruct (unreserved c) eqn:U; [auto|].
  destruct (Ascii.eqb_spec c " "); auto.
Qed.

(** Different texts have different encodings. *)
Lemma encode_injective (a b : string) : encode a = encode b -> a = b.
Proof.
  revert b. induction a as [|c a IH]; intros [|d b] E; simpl in E.
  - reflexivity.
  - exfalso. apply (f_equal String.length) in E. rewrite string_length_append in E.
    pose proof (encode_byte_length d). simpl in E. lia.
  - exfalso. apply (f_equal String.length) in E. rewrite string_length_append in E.
    pose proof (encode_byte_length c). simpl in E. lia.
  - destruct (encode_byte_cases c) as [[Uc Ec]|[[Uc [Sc Ec]]|[Uc [Sc Ec]]]];
      destruct (encode_byte_cases d) as [[Ud Ed]|[[Ud [Sd Ed]]|[Ud [Sd Ed]]]];
      rewrite Ec, Ed in E; unfold percent_encode in E; simpl in E;
      inversion E; subst; try discriminate.
    + f_equal. auto.
    + f_equal. auto.
    + f_equal; [|auto].
      rewrite <- (unpercent_percent c), <- (unpercent_percent d).
      unfold percent_encode. simpl.
      repeat match goal with
             | H : hex_digit _ = hex_digit _ |- _ => rewrite H; clear H
             end.
      reflexivity.
Qed.

Lemma pair_injective (kv kv' : string * string) : pair kv = pair kv' -> kv = kv'.
Proof.
  destruct kv as [k v], kv' as [k' v']. unfold pair. simpl. intros E.
  change ("=" ++ ?x) with (String "=" x) in E.
  apply split_at_first in E as [Ek Ev];
    try (apply encode_no_separator; right; left; reflexivity).
  apply encode_injective in Ek, Ev. now subst.
Qed.

(** The query text determines the list of parameters. *)
Lemma serialize_injective (ps ps' : list (string * string)) :
  serialize ps = serialize ps' -> ps = ps'.
Proof.
  assert (Sa : Contract.separator "&") by (left; reflexivity).
  assert (Se : Contract.separator "=") by (right; left; reflexivity).
  revert ps'. induction ps as [|kv ps IH]; intros [|kv' ps'] E.
  - reflexivity.
  - exfalso. pose proof (serialize_count "=" (kv' :: ps') Se) as C.
    rewrite <- E in C. discriminate.
  - exfalso. pose proof (serialize_count "=" (kv :: ps) Se) as C.
    rewrite E in C. discriminate.
  - destruct ps as [|k2 ps], ps' as [|k2' ps'].
    + simpl in E. now apply pair_injective in E as ->.
    + exfalso. pose proof (serialize_count "&" (kv' :: k2' :: ps') Sa) as C.
      rewrite <- E in C. simpl in C. rewrite (pair_count "&" kv Sa) in C. discriminate.
    + exfalso. pose proof (serialize_count "&" (kv :: k2 :: ps) Sa) as C.
      rewrite E in C. simpl in C. rewrite (pair_count "&" kv' Sa) in C. discriminate.
    + change (pair kv ++ String "&" (serialize (k2 :: ps))
              = pair kv' ++ String "&" (serialize (k2' :: ps'))) in E.
      apply split_at_first in E as [Ek Er]; try apply (pair_count "&" _ Sa).
      apply pair_injective in Ek as ->. now rewrite (IH _ Er).
Qed.

End EncoderFacts.

(** ** Arguments and descriptors *)

(** X1.  An executor reads the properties its descriptor declares and
    no others: two arguments objects that agree on the declared
    properties give the same request and the same result.  An argument
    named [key], or any other undeclared one, changes nothing. *)
Theorem undeclared_arguments_ignored
        (t : Tool) (apiKey : Env) (fetch : Transport) (args args' : Args) :
  (forall n, In n (Contract.declared t) -> prop args n = prop args' n) ->
  request t apiKey args = request t apiKey args'
  /\ executeFunction t apiKey fetch args = executeFunction t apiKey fetch args'.
Proof.
  intros H.
  assert (R : request t apiKey args = request t apiKey args').
  { destruct t; cbn [request]; autounfold with builders; unfold prop_default; cbv zeta;
      cbn [Contract.declared definition properties map fst] in H;
      repeat match goal with
             | |- context [prop args ?n] => rewrite (H n) by (cbn [In]; tauto)
             end;
      reflexivity. }
  split; [exact R|]. unfold executeFunction. now rewrite R.
Qed.

Lemma undeclared_arguments_ignored_witness :
  request distance_matrix (Some "KEY") Scenario.route_with_extra
  = request distance_matrix (Some "KEY") Scenario.route_args
  /\ executeFunction distance_matrix (Some "KEY")
       (Scenario.answer 200 (Normal Scenario.quota_notice)) Scenario.route_with_extra
     = executeFunction distance_matrix (Some "KEY")
         (Scenario.answer 200 (Normal Scenario.quota_notice)) Scenario.route_args.
Proof.
  apply (undeclared_arguments_ignored distance_matrix).
  intros n Hin. cbn in Hin.
  repeat destruct Hin as [<-|Hin]; try reflexivity. contradiction.
Defined.

(** X2.  The descriptors are well formed: tool names are pairwise
    distinct, the property names of a descriptor are pairwise distinct,
    every required name is a declared property, and every [enum] is
    attached to a declared string property. *)
Theorem descriptors_well_formed (t : Tool) :
  (forall t', name (definition t) = name (definition t') -> t = t')
  /\ NoDup (Contract.declared t)
  /\ incl (required (definition t)) (Contract.declared t)
  /\ (forall p allowed, In (p, allowed) (Contract.enums t) ->
        In (p, TString) (properties (definition t))).
Proof.
  split; [|split; [|split]].
  - intros t' H. destruct t, t'; try reflexivity; discriminate H.
  - destruct t; cbn; repeat constructor; cbn; intuition discriminate.
  - intros n Hin. destruct t; cbn in Hin |- *; tauto.
  - intros p allowed Hin.
    destruct t; cbn in Hin; try contradiction;
      destruct Hin as [Hin|[]]; injection Hin as <- <-; cbn; tauto.
Qed.

(** X3.  The result does not tell an upstream rejection from a transport
    failure: when the request is built, a response with a non-success
    status and body [body] gives the very result that a transport
    failure with the message [JSON.stringify(body)] gives. *)
Theorem failure_kind_not_reported
        (t : Tool) (apiKey : Env) (args : Args) (req : Request) (st : Z) (body : Json) :
  request t apiKey args = Normal req ->
  ok (mkResponse st (Normal body)) = false ->
  executeFunction t apiKey (Scenario.answer st (Normal body)) args
  = executeFunction t apiKey (Scenario.refuse (JSON.stringify body)) args.
Proof.
  intros H K.
  rewrite (outcome_rejection _ _ _ _ _ _ _ H eq_refl K eq_refl).
  now rewrite (outcome_transport_failure _ _ _ _ _ _ H eq_refl).
Qed.

Lemma failure_kind_not_reported_witness :
  executeFunction nearest_roads (Some "KEY")
    (Scenario.answer 403 (Normal Scenario.invalid_request))
    [("points", VStr "60.17,24.94")]
  = executeFunction nearest_roads (Some "KEY")
      (Scenario.refuse (JSON.stringify Scenario.invalid_request))
      [("points", VStr "60.17,24.94")].
Proof.
  eapply (failure_kind_not_reported nearest_roads); reflexivity.
Defined.

(** ** The anatomy of the URL *)

Ltac origin :=
  repeat match goal with H : origin_path _ = _ |- _ => rewrite H; clear H end.

(** The URL handed to [fetch]: the endpoint, the serialised parameter
    list, and the key of the tools that concatenate it. *)
Lemma request_url_parts (t : Tool) (apiKey : Env) (args : Args) (req : Request) :
  request t apiKey args = Normal req ->
  exists ps,
    query_params t apiKey args = Normal ps
    /\ ps <> []
    /\ request_url req
       = Spec.endpoint t ++ "?" ++ FormUrlencoded.serialize ps
         ++ Contract.raw_suffix t apiKey.
Proof.
  intros H.
  destruct t; cbn [request] in H;
    match type of H with ?f _ _ = _ => unfold f in H end; cbv zeta in H;
    apply bind_Normal_inv in H as (u & Hu & H); apply Normal_inj in H; subst req;
    cbn [query_params]; cbv zeta; rewrite ?Hu; cbn [bind];
    (eexists; split; [reflexivity|]);
    cbn [request_url GET Contract.raw_suffix Spec.concatenates_key Spec.endpoint];
    open_builder Hu; effects "key"; forward;
    (split; [assumption|]);
    rewrite ?href_nonempty by assumption; origin;
    cbn [new_URL origin_path href searchParams];
    rewrite ?string_append_empty_r, ?string_append_assoc; reflexivity.
Qed.

Lemma endpoint_has_no_separator (t : Tool) (c : ascii) :
  Contract.separator c -> Contract.count c (Spec.endpoint t) = 0.
Proof.
  intros [-> | [-> | [-> | ->]]]; destruct t; reflexivity.
Qed.

(** X4.  Whatever the arguments and the key, the URL of a request that
    is built starts with the tool's endpoint and [?]; what follows is
    the serialisation of the parameter list the executor has built,
    which is never empty, and then, in forecast_days, get_hourly_weather
    and current_conditions, [&key=] and the configuration value. *)
Theorem request_url_anatomy (t : Tool) (apiKey : Env) (args : Args) (req : Request) :
  request t apiKey args = Normal req ->
  prefix (Spec.endpoint t ++ "?") (request_url req) = true
  /\ exists ps,
       query_params t apiKey args = Normal ps
       /\ ps <> []
       /\ request_url req
          = Spec.endpoint t ++ "?" ++ FormUrlencoded.serialize ps
            ++ Contract.raw_suffix t apiKey.
Proof.
  intros H.
  destruct (request_url_parts _ _ _ _ H) as (ps & Hq & Hne & Hurl).
  split; [|eauto].
  rewrite Hurl, <- string_append_assoc. apply prefix_append.
Qed.

Lemma request_url_anatomy_witness :
  exists req,
    request text_search (Some "KEY") [("query", VStr "tacos & beer?")] = Normal req
    /\ request_url req
       = "https://maps.googleapis.com/maps/api/place/textsearch/json?query=tacos+%26+beer%3F&language=en&region=en&key=KEY"
    /\ prefix (Spec.endpoint text_search ++ "?") (request_url req) = true.
Proof.
  eexists. split; [reflexivity|]. split; [reflexivity|].
  exact (proj1 (request_url_anatomy text_search (Some "KEY")
                  [("query", VStr "tacos & beer?")] _ eq_refl)).
Defined.

(** X5.  Argument values cannot add, split or cut parameters: in the URL
    of a request built from [n] parameters, apart from what a
    concatenated key contributes, there are [n - 1] bytes [&], [n] bytes
    [=], one [?] and no [#]. *)
Theorem separators_come_from_parameters
        (t : Tool) (apiKey : Env) (args : Args) (req : Request) :
  request t apiKey args = Normal req ->
  exists ps,
    query_params t apiKey args = Normal ps
    /\ Contract.count "&" (request_url req)
       = length ps - 1 + Contract.count "&" (Contract.raw_suffix t apiKey)
    /\ Contract.count "=" (request_url req)
       = length ps + Contract.count "=" (Contract.raw_suffix t apiKey)
    /\ Contract.count "?" (request_url req)
       = 1 + Contract.count "?" (Contract.raw_suffix t apiKey)
    /\ Contract.count "#" (request_url req)
       = Contract.count "#" (Contract.raw_suffix t apiKey).
Proof.
  intros H.
  destruct (request_url_parts _ _ _ _ H) as (ps & Hq & Hne & Hurl).
  exists ps. split; [exact Hq|]. rewrite Hurl.
  repeat split; rewrite !count_append, endpoint_has_no_separator, serialize_count;
    cbn [Ascii.eqb Bool.eqb Contract.count Nat.add];
    unfold Contract.separator; auto; lia.
Qed.

Lemma separators_come_from_parameters_witness :
  exists req,
    request nearby_search (Some "KEY")
      [("location", VStr "1,2"); ("keyword", VStr "a&b=c#d?e")] = Normal req
    /\ Contract.count "&" (request_url req) = 3
    /\ Contract.count "#" (request_url req) = 0.
Proof.
  eexists. split; [reflexivity|].
  destruct (separators_come_from_parameters nearby_search (Some "KEY")
              [("location", VStr "1,2"); ("keyword", VStr "a&b=c#d?e")] _ eq_refl)
    as (ps & Hq & Ha & _ & _ & Hh).
  injection Hq as <-. split; [exact Ha | exact Hh].
Defined.

(** X6.  For a given tool and configuration, the URL determines the
    parameter list: two invocations whose requests carry the same URL
    have built the same names with the same values, in the same
    order. *)
Theorem url_determines_parameters
        (t : Tool) (apiKey : Env) (args args' : Args) (req req' : Request) :
  request t apiKey args = Normal req ->
  request t apiKey args' = Normal req' ->
  request_url req = request_url req' ->
  query_params t apiKey args = query_params t apiKey args'.
Proof.
  intros H H' E.
  destruct (request_url_parts _ _ _ _ H) as (ps & Hq & _ & Hurl).
  destruct (request_url_parts _ _ _ _ H') as (ps' & Hq' & _ & Hurl').
  rewrite Hq, Hq'. f_equal.
  rewrite Hurl, Hurl' in E.
  apply string_append_cancel_l in E.
  change ("?" ++ ?x) with (String "?" x) in E. injection E as E.
  apply string_append_cancel_r in E.
  now apply serialize_injective.
Qed.

Lemma url_determines_parameters_witness :
  query_params distance_matrix (Some "KEY") Scenario.route_with_extra
  = query_params distance_matrix (Some "KEY") Scenario.route_args.
Proof.
  eapply (url_determines_parameters distance_matrix (Some "KEY")); reflexivity.
Defined.

(** ** The order of the parameters *)

Section SubsequenceFacts.

Context {A : Type}.

Lemma Subsequence_In (a l : list A) (x : A) :
  Contract.Subsequence a l -> In x a -> In x l.
Proof.
  induction 1; simpl; intros Hin; [contradiction | | auto].
  destruct Hin; auto.
Qed.

Lemma Subsequence_NoDup (a l : list A) :
  Contract.Subsequence a l -> NoDup l -> NoDup a.
Proof.
  induction 1; intros Hl; [constructor | |].
  - inversion Hl; subst. constructor; [|auto].
    intros Hin. eauto using Subsequence_In.
  - inversion Hl; auto.
Qed.

Lemma Subsequence_optional (c r l : list A) (n : A) :
  (c = [] \/ c = [n]) -> Contract.Subsequence r l ->
  Contract.Subsequence (c ++ r) (n :: l).
Proof.
  intros [->| ->] H; simpl; now constructor.
Qed.

End SubsequenceFacts.

Section NameFacts.

Lemma params_append_names (ps ps' : URLSearchParams) (n : string) (v : JsVal) :
  params_append ps n v = Normal ps' ->
  map fst ps' = (map fst ps ++ [n])%list.
Proof.
  intros H. apply params_append_inv in H as (s & _ & ->). now rewrite map_app.
Qed.

Lemma params_append_if_truthy_names (ps ps' : URLSearchParams) (n : string) (v : JsVal) :
  params_append_if_truthy ps n v = Normal ps' ->
  exists c, (c = [] \/ c = [n]) /\ map fst ps' = (map fst ps ++ c)%list.
Proof.
  intros H. apply params_append_if_truthy_inv in H as [[_ ->]|[_ (s & _ & ->)]].
  - exists []. now rewrite app_nil_r; auto.
  - exists [n]. rewrite map_app. auto.
Qed.

Lemma append_names (u u' : URL) (n : string) (v : JsVal) :
  append u n v = Normal u' ->
  map fst (searchParams u') = (map fst (searchParams u) ++ [n])%list.
Proof.
  intros H. apply append_inv in H as (s & _ & ->). simpl. now rewrite map_app.
Qed.

Lemma append_if_truthy_names (u u' : URL) (n : string) (v : JsVal) :
  append_if_truthy u n v = Normal u' ->
  exists c, (c = [] \/ c = [n]) /\
            map fst (searchParams u') = (map fst (searchParams u) ++ c)%list.
Proof.
  intros H. apply append_if_truthy_inv in H as [[_ ->]|[_ (s & _ & ->)]].
  - exists []. now rewrite app_nil_r; auto.
  - exists [n]. simpl. rewrite map_app. auto.
Qed.

End NameFacts.

(** Replaces every step by the name it appends, and lists the names. *)
Ltac names :=
  repeat match goal with
  | H : append _ _ _ = Normal _ |- _ => apply append_names in H
  | H : append_if_truthy _ _ _ = Normal _ |- _ =>
      apply append_if_truthy_names in H; destruct H as (? & ? & H)
  | H : params_append _ _ _ = Normal _ |- _ => apply params_append_names in H
  | H : params_append_if_truthy _ _ _ = Normal _ |- _ =>
      apply params_append_if_truthy_names in H; destruct H as (? & ? & H)
  end;
  repeat match goal with
  | H : map fst _ = _ |- _ => rewrite H; clear H
  end;
  cbn [new_URL searchParams map fst app];
  rewrite <- ?app_assoc; cbn [app].

Ltac walk :=
  repeat first
    [ apply Contract.sub_nil
    | apply Contract.sub_take
    | apply Subsequence_optional; [assumption|]
    | apply Contract.sub_skip ].

(** X7.  Whatever the arguments, the names in the parameter list an
    executor builds follow the order in which the descriptor declares
    them (coordinates under their [location.] names), with [key] last
    when it is in the list, and no name occurs twice. *)
Theorem parameters_in_declaration_order
        (t : Tool) (apiKey : Env) (args : Args) (ps : URLSearchParams) :
  query_params t apiKey args = Normal ps ->
  Contract.Subsequence (map fst ps) (Contract.sendable_names t)
  /\ NoDup (map fst ps).
Proof.
  intros H.
  assert (S : Contract.Subsequence (map fst ps) (Contract.sendable_names t)).
  { destruct t; cbn [query_params] in H; open_builder H; names;
      cbn [Contract.sendable_names Contract.declared definition properties map fst app
           Spec.wire_name Spec.weather_family andb orb String.eqb Ascii.eqb Bool.eqb];
      walk. }
  split; [exact S|].
  apply (Subsequence_NoDup _ _ S).
  destruct t; cbn; repeat constructor; cbn; intuition discriminate.
Qed.

Lemma parameters_in_declaration_order_witness :
  exists ps,
    query_params distance_matrix (Some "KEY") Scenario.route_options = Normal ps
    /\ map fst ps
       = ["origins"; "destinations"; "mode"; "units"; "language"; "avoid"; "key"]
    /\ Contract.Subsequence (map fst ps) (Contract.sendable_names distance_matrix)
    /\ NoDup (map fst ps).
Proof.
  eexists. split; [reflexivity|]. split; [reflexivity|].
  apply (parameters_in_declaration_order distance_matrix (Some "KEY")
           Scenario.route_options).
  reflexivity.
Defined.

(** ** What is sent under a name *)

Section ConversionFacts.

Lemma toString_method_ToString (x : string) (v : JsVal) (s : string) :
  toString_method x v = Normal s -> ToString v = Normal s.
Proof. destruct v as [| | | | |[|]]; simpl; intros H; try discriminate; exact H. Qed.

Lemma ToString_VStr (s x : string) : ToString (VStr s) = Normal x -> x = s.
Proof. simpl. congruence. Qed.

End ConversionFacts.

(** Reads the text of a converted value back to the value. *)
Ltac texts :=
  repeat match goal with
  | H : ToString (VStr _) = Normal _ |- _ => apply ToString_VStr in H; subst
  | H : toString_method _ _ = Normal _ |- _ => apply toString_method_ToString in H
  end.

Ltac settle_sent :=
  match goal with
  | H : ToString ?v = Normal ?x |- exists s, ToString ?v = Normal s /\ [?x] = [s] =>
      exists x; split; [exact H | reflexivity]
  end.

Ltac settle_default :=
  repeat match goal with
  | H : ToString _ = Normal ?x |- [?x] = _ => vm_compute in H; injection H as <-
  | Hd : (truthy _ = false /\ ?x = []) \/ _ |- ?x = _ =>
      destruct Hd as [[Hf _]|[_ (s & Hs & ->)]]; [discriminate Hf|]
  end;
  reflexivity.

(** X8.  For every parameter with a documented default, whatever the
    other arguments: when the arguments object does not supply the
    property, the parameter is sent exactly once, with the default. *)
Theorem default_applies_when_undefined
        (t : Tool) (p d : string) (apiKey : Env) (args : Args) (ps : URLSearchParams) :
  In (p, d) (Spec.documented_defaults t) ->
  prop args p = VUndef ->
  query_params t apiKey args = Normal ps ->
  Spec.values_of p ps = [d].
Proof.
  intros Hin Hu H.
  destruct t; cbn [Spec.documented_defaults In] in Hin; try contradiction;
    cbn [query_params] in H; open_builder H;
    repeat destruct Hin as [Hin|Hin]; try contradiction;
    injection Hin as <- <-;
    unfold prop_default in *; rewrite Hu in *;
    (let p := the_name in effects p; collect p);
    texts; settle_default.
Qed.

Lemma default_applies_when_undefined_witness :
  exists ps,
    query_params forecast_hours None Scenario.coordinates = Normal ps
    /\ Spec.values_of "days" ps = ["240"]
    /\ Spec.values_of "unitsSystem" ps = ["METRIC"].
Proof.
  eexists. split; [reflexivity|]. split.
  - apply (default_applies_when_undefined forecast_hours "days" "240" None
             Scenario.coordinates); [cbn; tauto | reflexivity | reflexivity].
  - apply (default_applies_when_undefined forecast_hours "unitsSystem" "METRIC" None
             Scenario.coordinates); [cbn; tauto | reflexivity | reflexivity].
Defined.

(** X9.  For every parameter that has a default and is appended without
    a test (mode, units, language, region, unitsSystem, languageCode,
    pageSize, days, hours, interpolate, where the tool has them so):
    a supplied value is sent exactly once, as its own text, in place of
    the default, also when it is falsy (an empty string, 0, false) and
    whatever the descriptor's [enum] allows. *)
Theorem supplied_value_replaces_default
        (t : Tool) (p : string) (apiKey : Env) (args : Args) (ps : URLSearchParams) :
  In p (Contract.always_defaulted t) ->
  prop args p <> VUndef ->
  query_params t apiKey args = Normal ps ->
  exists s, ToString (prop args p) = Normal s /\ Spec.values_of p ps = [s].
Proof.
  intros Hin Hne H.
  destruct t; cbn [Contract.always_defaulted In] in Hin; try contradiction;
    cbn [query_params] in H; open_builder H;
    repeat destruct Hin as [<-|Hin]; try contradiction;
    rewrite ?(prop_default_supplied _ _ _ Hne) in *;
    (let p := the_name in effects p; collect p);
    texts; settle_sent.
Qed.

Lemma supplied_value_replaces_default_witness :
  exists ps,
    query_params forecast_hours (Some "KEY") Scenario.coordinates_imperial = Normal ps
    /\ (exists s, ToString (VNum (NInt 0)) = Normal s
                  /\ Spec.values_of "pageSize" ps = [s])
    /\ (exists s, ToString (VStr "KELVIN") = Normal s
                  /\ Spec.values_of "unitsSystem" ps = [s]).
Proof.
  eexists. split; [reflexivity|]. split.
  - apply (supplied_value_replaces_default forecast_hours "pageSize" (Some "KEY")
             Scenario.coordinates_imperial); [cbn; tauto | discriminate | reflexivity].
  - apply (supplied_value_replaces_default forecast_hours "unitsSystem" (Some "KEY")
             Scenario.coordinates_imperial); [cbn; tauto | discriminate | reflexivity].
Defined.

(** X10.  A required parameter is never checked and never left out:
    whenever the parameter list is built, it holds the parameter
    exactly once, with the text of whatever the arguments object has
    under its name, which is the text [undefined] when the property is
    missing. *)
Theorem required_always_sent
        (t : Tool) (p : string) (apiKey : Env) (args : Args) (ps : URLSearchParams) :
  In p (required (definition t)) ->
  query_params t apiKey args = Normal ps ->
  (exists s, ToString (prop args p) = Normal s
             /\ Spec.values_of (Spec.wire_name t p) ps = [s])
  /\ (prop args p = VUndef ->
      Spec.values_of (Spec.wire_name t p) ps = ["undefined"]).
Proof.
  intros Hin H.
  assert (S : exists s, ToString (prop args p) = Normal s
                        /\ Spec.values_of (Spec.wire_name t p) ps = [s]).
  { destruct t; cbn [definition required In] in Hin;
      cbn [query_params] in H; open_builder H;
      repeat destruct Hin as [<-|Hin]; try contradiction;
      cbn [Spec.wire_name Spec.weather_family andb orb String.eqb Ascii.eqb Bool.eqb
           String.append];
      (let p := the_name in effects p; collect p);
      texts; settle_sent. }
  split; [exact S|].
  intros Hu. destruct S as (s & Hs & Hv). rewrite Hu in Hs.
  injection Hs as <-. exact Hv.
Qed.

Lemma required_always_sent_witness :
  exists ps,
    query_params distance_matrix (Some "KEY") [("origins", VStr "Reno, NV")] = Normal ps
    /\ Spec.values_of "destinations" ps = ["undefined"]
    /\ ps = [("origins", "Reno, NV"); ("destinations", "undefined");
             ("mode", "driving"); ("units", "metric"); ("language", "en");
             ("traffic_model", "best_guess"); ("key", "KEY")].
Proof.
  eexists. split; [reflexivity|]. split; [|reflexivity].
  apply (required_always_sent distance_matrix "destinations" (Some "KEY")
           [("origins", VStr "Reno, NV")]); [cbn; tauto | reflexivity | reflexivity].
Defined.

(** A [null] where the executor calls [.toString()], or a missing
    timestamp, and no request is built. *)
Lemma null_never_builds (t : Tool) (p : string) (apiKey : Env) (args : Args) (req : Request) :
  In p (Contract.stringified t) ->
  prop args p = VNull \/ (t = get_time_zone /\ prop args p = VUndef) ->
  request t apiKey args = Normal req -> False.
Proof.
  intros Hin Hv H.
  destruct t; cbn [Contract.stringified In] in Hin; try contradiction;
    cbn [request] in H;
    match type of H with ?f _ _ = _ => unfold f in H end; cbv zeta in H;
    apply bind_Normal_inv in H as (u & Hu & _);
    open_builder Hu;
    repeat destruct Hin as [<-|Hin]; try contradiction;
    unfold prop_default in *;
    destruct Hv as [Hv|[E Hv]]; try discriminate E;
    rewrite Hv in *;
    match goal with H : toString_method _ _ = Normal _ |- _ => discriminate H end.
Qed.

(** X11.  The parameters converted with [.toString()] (timestamp,
    interpolate, pageSize, days, hours) do not take [null], for which
    no default stands in, and timestamp, which has no default, cannot be
    missing: the construction of the URL throws, no request is handed
    to the transport, and the result is an error object whatever the
    transport would have answered. *)
Theorem null_rejected_locally (t : Tool) (p : string) (apiKey : Env) (args : Args) :
  In p (Contract.stringified t) ->
  prop args p = VNull \/ (t = get_time_zone /\ prop args p = VUndef) ->
  exists e,
    request t apiKey args = Throw e
    /\ forall fetch,
         executeFunction t apiKey fetch args
         = Normal (error_result (failure_prefix t ++ describe e)).
Proof.
  intros Hin Hv.
  destruct (request t apiKey args) as [req|e] eqn:R.
  - exfalso. eapply null_never_builds; eauto.
  - exists e. split; [reflexivity|]. intros fetch. now apply outcome_url_failure.
Qed.

Lemma null_rejected_locally_witness :
  exists e,
    request forecast_days (Some "KEY") Scenario.coordinates_null_page = Throw e
    /\ e = ErrorObj "Cannot read properties of null (reading 'toString')"
    /\ forall fetch,
         executeFunction forecast_days (Some "KEY") fetch Scenario.coordinates_null_page
         = Normal (error_result (failure_prefix forecast_days ++ describe e)).
Proof.
  destruct (null_rejected_locally forecast_days "pageSize" (Some "KEY")
              Scenario.coordinates_null_page) as (e & He & Hx);
    [cbn; tauto | left; reflexivity |].
  exists e. split; [exact He|]. split; [|exact Hx].
  cbv in He. now injection He as <-.
Defined.

(** ** When a request is built *)

Ltac split_all :=
  repeat match goal with
  | H : (_ && _)%bool = true |- _ => apply andb_prop in H; destruct H
  end.

(** Settles one step by the cases of the one value it converts. *)
Ltac one_value :=
  unfold append_if_truthy, params_append_if_truthy in *;
  unfold append, params_append, prop_default in *;
  match goal with
  | |- context [prop ?args ?n] =>
      destruct (prop args n) as [| |?|?|?|[?|]];
      cbn [Contract.convertible Contract.has_toString truthy ToString toString_method
           bind Spec.lookup Spec.documented_defaults String.eqb Ascii.eqb Bool.eqb] in *;
      try discriminate;
      repeat match goal with |- context [if ?b then _ else _] => destruct b end;
      eauto
  | _ => cbn [ToString bind]; eauto
  end.

(** Runs the steps one after the other; each one succeeds. *)
Ltac run_steps :=
  repeat match goal with
  | |- context [bind (append ?u ?n ?v) _] =>
      let E := fresh "E" in
      assert (exists u', append u n v = Normal u') as [? E] by one_value;
      rewrite E; clear E; cbn [bind]
  | |- context [bind (append_if_truthy ?u ?n ?v) _] =>
      let E := fresh "E" in
      assert (exists u', append_if_truthy u n v = Normal u') as [? E] by one_value;
      rewrite E; clear E; cbn [bind]
  | |- context [bind (params_append ?u ?n ?v) _] =>
      let E := fresh "E" in
      assert (exists u', params_append u n v = Normal u') as [? E] by one_value;
      rewrite E; clear E; cbn [bind]
  | |- context [bind (params_append_if_truthy ?u ?n ?v) _] =>
      let E := fresh "E" in
      assert (exists u', params_append_if_truthy u n v = Normal u') as [? E] by one_value;
      rewrite E; clear E; cbn [bind]
  | |- context [bind (toString_method ?x ?v) _] =>
      let E := fresh "E" in
      assert (exists s, toString_method x v = Normal s) as [? E] by one_value;
      rewrite E; clear E; cbn [bind]
  end.

(** Reads what a value must have been off the steps that succeeded. *)
Ltac from_steps args n :=
  unfold append_if_truthy, params_append_if_truthy in *;
  unfold append, params_append, prop_default in *;
  destruct (prop args n) as [| |?|?|?|[?|]];
  cbn [Contract.convertible Contract.has_toString truthy ToString toString_method bind
       Spec.lookup Spec.documented_defaults String.eqb Ascii.eqb Bool.eqb] in *;
  try discriminate; reflexivity.

Lemma accepted_builds (t : Tool) (apiKey : Env) (args : Args) :
  Contract.accepted t args = true -> exists req, request t apiKey args = Normal req.
Proof.
  intros H. unfold Contract.accepted in H.
  destruct t;
    cbn [Contract.declared Contract.stringified definition properties map fst
         forallb andb] in H;
    split_all;
    cbn [request]; autounfold with builders; cbv zeta;
    run_steps;
    try (destruct (truthy (env_value apiKey)); cbn [bind]);
    unfold append, params_append; rewrite ?ToString_env_value; cbn [bind];
    eauto.
Qed.

Lemma builds_accepted (t : Tool) (apiKey : Env) (args : Args) (req : Request) :
  request t apiKey args = Normal req -> Contract.accepted t args = true.
Proof.
  intros H. unfold Contract.accepted.
  destruct t; cbn [request] in H;
    match type of H with ?f _ _ = _ => unfold f in H end; cbv zeta in H;
    apply bind_Normal_inv in H as (u & Hu & _);
    open_builder Hu;
    cbn [Contract.declared Contract.stringified definition properties map fst
         forallb andb];
    repeat match goal with
    | |- context [Contract.convertible (prop ?args ?n)] =>
        let C := fresh "C" in
        assert (C : Contract.convertible (prop args n) = true) by from_steps args n;
        rewrite C; clear C
    | |- context [Contract.has_toString ?t ?n (prop ?args ?n)] =>
        let C := fresh "C" in
        assert (C : Contract.has_toString t n (prop args n) = true) by from_steps args n;
        rewrite C; clear C
    end;
    reflexivity.
Qed.

(** X12.  The construction of the URL is the only local check there is,
    and it fails in two ways only.  A request is built and handed to the
    transport exactly when every declared property holds a value that
    converts to a string, and every parameter on which the executor
    calls [.toString()] is neither [null] nor, for lack of a default,
    missing.  The key plays no part. *)
Theorem request_built_iff_accepted (t : Tool) (apiKey : Env) (args : Args) :
  (exists req, request t apiKey args = Normal req) <-> Contract.accepted t args = true.
Proof.
  split.
  - intros [req H]. eapply builds_accepted; eauto.
  - apply accepted_builds.
Qed.

Ltac typed args n :=
  destruct (prop args n) as [| |?|[?|?|?|]|?|[?|]];
  cbn [Contract.convertible Contract.has_toString is_undefined has_type orb
       Spec.lookup Spec.documented_defaults String.eqb Ascii.eqb Bool.eqb] in *;
  try discriminate; reflexivity.

(** X13.  Arguments that satisfy the descriptor (each required property
    supplied, each supplied property of its declared type) never fail
    locally: a request is built, whatever the key. *)
Theorem schema_valid_arguments_build (t : Tool) (apiKey : Env) (args : Args) :
  Contract.schema_valid t args = true ->
  exists req, request t apiKey args = Normal req.
Proof.
  intros H. apply accepted_builds.
  unfold Contract.schema_valid, required_supplied in H. unfold Contract.accepted.
  destruct t;
    cbn [definition properties required forallb is_required existsb fst snd
         String.eqb Ascii.eqb Bool.eqb negb orb andb] in H;
    split_all;
    cbn [Contract.declared Contract.stringified definition properties map fst
         forallb andb];
    repeat match goal with
    | |- context [Contract.convertible (prop ?args ?n)] =>
        let C := fresh "C" in
        assert (C : Contract.convertible (prop args n) = true) by typed args n;
        rewrite C; clear C
    | |- context [Contract.has_toString ?t ?n (prop ?args ?n)] =>
        let C := fresh "C" in
        assert (C : Contract.has_toString t n (prop args n) = true) by typed args n;
        rewrite C; clear C
    end;
    reflexivity.
Qed.

Lemma schema_valid_arguments_build_witness :
  exists req, request forecast_hours None Scenario.coordinates_imperial = Normal req.
Proof.
  apply (schema_valid_arguments_build forecast_hours None Scenario.coordinates_imperial).
  reflexivity.
Defined.

(** X14.  The [enum] of a descriptor is not enforced by the executor: a
    string supplied for an enum-restricted parameter is sent as it is,
    allowed or not.  The default that stands in for a missing one is
    one of the allowed values. *)
Theorem enum_is_advisory
        (t : Tool) (p : string) (allowed : list string)
        (apiKey : Env) (args : Args) (ps : URLSearchParams) :
  In (p, allowed) (Contract.enums t) ->
  query_params t apiKey args = Normal ps ->
  (forall s, prop args p = VStr s -> Spec.values_of p ps = [s])
  /\ (forall d, Spec.lookup p (Spec.documented_defaults t) = Some d ->
        In d allowed
        /\ (prop args p = VUndef -> Spec.values_of p ps = [d])).
Proof.
  intros Hin H.
  destruct t; cbn [Contract.enums In] in Hin; try contradiction;
    destruct Hin as [Hin|[]]; injection Hin as <- <-;
    cbn [query_params] in H; open_builder H;
    (split; [intros s Hval
            | intros d Hd; cbn in Hd;
              first [ discriminate Hd
                    | injection Hd as <-; split; [cbn; tauto | intros Hval] ]]);
    unfold prop_default in *; rewrite Hval in *;
    (let p := the_name in effects p; collect p);
    texts; settle_default.
Qed.

Lemma enum_is_advisory_witness :
  exists ps,
    query_params forecast_hours (Some "KEY") Scenario.coordinates_imperial = Normal ps
    /\ Spec.values_of "unitsSystem" ps = ["KELVIN"].
Proof.
  eexists. split; [reflexivity|].
  refine (proj1 (enum_is_advisory forecast_hours "unitsSystem" ["METRIC"; "IMPERIAL"]
                   (Some "KEY") Scenario.coordinates_imperial _ _ eq_refl)
            "KELVIN" eq_refl).
  cbn. tauto.
Defined.
